(** * Dragon stream cipher (eSTREAM optimised reference, [ref/dragon-opt.c])

    A shallow embedding of the ECRYPT API of [dragon-opt.c]: key setup,
    IV setup, block-wise keystream generation and processing, and the
    byte-stream adapter, followed by the properties of the design notes.

    Conventions of the embedding:
    - a [u32] is a [Z]; every place where the C arithmetic can leave the
      range [0, 2^32) is wrapped with [wrap32];
    - a C array is a [list Z], read with [nth _ _ 0] and written with
      stdpp's [<[i:=v]>];
    - a pointer argument that the code tests in an [assert] is an [option]
      (for data that is read) or a [out_ptr] (for a buffer that is only
      written); what is stored through an advancing output pointer is
      returned as the list of stored words or bytes, in order;
    - [assert] failing is the outcome [AssertFail]; the one loop whose
      termination depends on its argument runs on fuel and yields
      [OutOfFuel] when the fuel is used up. *)

From Stdlib Require Import ZArith List Lia Bool.
From stdpp Require Import base list.
Import ListNotations.

Local Open Scope Z_scope.

(** ** Machine words *)

Definition wrap32 (x : Z) : Z := x mod 2 ^ 32.

Definition add32 (x y : Z) : Z := wrap32 (x + y).

Arguments wrap32 : simpl never.
Arguments add32 : simpl never.

(** ** Outcomes of a call *)

Inductive result (A : Type) : Type :=
| Ret (a : A)
| AssertFail
| OutOfFuel.

Arguments Ret {A} a.
Arguments AssertFail {A}.
Arguments OutOfFuel {A}.

#[global] Instance result_ret : MRet result := fun A a => Ret a.

#[global] Instance result_fmap : FMap result := fun A B f r =>
  match r with
  | Ret a => Ret (f a)
  | AssertFail => AssertFail
  | OutOfFuel => OutOfFuel
  end.

#[global] Instance result_bind : MBind result := fun A B k r =>
  match r with
  | Ret a => k a
  | AssertFail => AssertFail
  | OutOfFuel => OutOfFuel
  end.

(** A buffer the callee only writes: the code looks at the pointer itself
    only to compare it with NULL. *)
Inductive out_ptr : Type := NULL | Buf.

(** ** Constants, macros and types of the missing headers *)

(** Modelled from the spec: [ecrypt-sync.h] is not under src/.  The NLFSR
    is "an ordered circular buffer of 32 words". *)
Definition DRAGON_NLFSR_SIZE : Z := 32.

(** Modelled from the spec: [ecrypt-sync.h] is not under src/.  The staging
    buffer is refilled "by calling the Round Function for exactly 16
    blocks"; [DRAGON_BUFFER_SIZE] is the block count of that call. *)
Definition DRAGON_BUFFER_SIZE : Z := 16.

(** Modelled from the spec: [U8TO32_LITTLE] comes from the ECRYPT portability
    headers, not under src/.  "All multi-byte words are interpreted
    little-endian": [U8TO32_LITTLE p off] is the word at [p + off]. *)
Definition U8TO32_LITTLE (p : list Z) (off : nat) : Z :=
  Z.lor (nth off p 0)
    (Z.lor (Z.shiftl (nth (off + 1) p 0) 8)
       (Z.lor (Z.shiftl (nth (off + 2) p 0) 16)
          (Z.shiftl (nth (off + 3) p 0) 24))).

Arguments U8TO32_LITTLE : simpl never.

(** The bytes of a list of words as they lie in memory when a [u8] buffer is
    filled through a [u32] pointer (little-endian host, as for
    [U8TO32_LITTLE]). *)
Definition word_bytes (w : Z) : list Z :=
  [ Z.land w 255;
    Z.land (Z.shiftr w 8) 255;
    Z.land (Z.shiftr w 16) 255;
    Z.land (Z.shiftr w 24) 255 ].

Definition words_to_bytes (ws : list Z) : list Z := concat (map word_bytes ws).

(** Modelled from the spec: the struct [ECRYPT_ctx] is declared in
    [ecrypt-sync.h], not under src/; the fields are those the code uses. *)
Record ECRYPT_ctx : Type := mk_ctx {
  nlfsr_word : list Z;        (* u32 nlfsr_word[DRAGON_NLFSR_SIZE] *)
  state_counter0 : Z;         (* u32 state_counter[0] *)
  state_counter1 : Z;         (* u32 state_counter[1] *)
  init_state : list Z;        (* u32 init_state[DRAGON_NLFSR_SIZE] *)
  key_size : Z;
  nlfsr_offset : Z;
  keystream_buffer : list Z;  (* u8 buffer holding DRAGON_BUFFER_SIZE blocks *)
  buffer_index : Z;
  full_rekeying : Z
}.

Definition set_nlfsr_word (c : ECRYPT_ctx) (w : list Z) : ECRYPT_ctx :=
  mk_ctx w (state_counter0 c) (state_counter1 c) (init_state c) (key_size c)
    (nlfsr_offset c) (keystream_buffer c) (buffer_index c) (full_rekeying c).

Definition set_state_counter0 (c : ECRYPT_ctx) (v : Z) : ECRYPT_ctx :=
  mk_ctx (nlfsr_word c) v (state_counter1 c) (init_state c) (key_size c)
    (nlfsr_offset c) (keystream_buffer c) (buffer_index c) (full_rekeying c).

Definition set_state_counter1 (c : ECRYPT_ctx) (v : Z) : ECRYPT_ctx :=
  mk_ctx (nlfsr_word c) (state_counter0 c) v (init_state c) (key_size c)
    (nlfsr_offset c) (keystream_buffer c) (buffer_index c) (full_rekeying c).

Definition set_init_state (c : ECRYPT_ctx) (w : list Z) : ECRYPT_ctx :=
  mk_ctx (nlfsr_word c) (state_counter0 c) (state_counter1 c) w (key_size c)
    (nlfsr_offset c) (keystream_buffer c) (buffer_index c) (full_rekeying c).

Definition set_key_size (c : ECRYPT_ctx) (v : Z) : ECRYPT_ctx :=
  mk_ctx (nlfsr_word c) (state_counter0 c) (state_counter1 c) (init_state c) v
    (nlfsr_offset c) (keystream_buffer c) (buffer_index c) (full_rekeying c).

Definition set_nlfsr_offset (c : ECRYPT_ctx) (v : Z) : ECRYPT_ctx :=
  mk_ctx (nlfsr_word c) (state_counter0 c) (state_counter1 c) (init_state c)
    (key_size c) v (keystream_buffer c) (buffer_index c) (full_rekeying c).

Definition set_keystream_buffer (c : ECRYPT_ctx) (b : list Z) : ECRYPT_ctx :=
  mk_ctx (nlfsr_word c) (state_counter0 c) (state_counter1 c) (init_state c)
    (key_size c) (nlfsr_offset c) b (buffer_index c) (full_rekeying c).

Definition set_buffer_index (c : ECRYPT_ctx) (v : Z) : ECRYPT_ctx :=
  mk_ctx (nlfsr_word c) (state_counter0 c) (state_counter1 c) (init_state c)
    (key_size c) (nlfsr_offset c) (keystream_buffer c) v (full_rekeying c).

Definition set_full_rekeying (c : ECRYPT_ctx) (v : Z) : ECRYPT_ctx :=
  mk_ctx (nlfsr_word c) (state_counter0 c) (state_counter1 c) (init_state c)
    (key_size c) (nlfsr_offset c) (keystream_buffer c) (buffer_index c) v.

(** ** The offset macros *)

(** [DRAGON_OFFSET(ctx, i, state_size)]: [(ctx->nlfsr_offset + i) & state_size],
    the sum taken in [u32]. *)
Definition DRAGON_OFFSET (ctx : ECRYPT_ctx) (ith_element state_size : Z) : Z :=
  Z.land (wrap32 (nlfsr_offset ctx + ith_element)) state_size.

(** The physical slot named by [DRAGON_NLFSR_WORD(ctx, i)]. *)
Definition nlfsr_slot (ctx : ECRYPT_ctx) (ith_word : Z) : nat :=
  Z.to_nat (DRAGON_OFFSET ctx ith_word (DRAGON_NLFSR_SIZE - 1)).

(** [DRAGON_NLFSR_WORD(ctx, i)] as an rvalue ... *)
Definition DRAGON_NLFSR_WORD (ctx : ECRYPT_ctx) (ith_word : Z) : Z :=
  nth (nlfsr_slot ctx ith_word) (nlfsr_word ctx) 0.

(** ... and as the target of an assignment. *)
Definition DRAGON_NLFSR_WORD_set (ctx : ECRYPT_ctx) (ith_word v : Z) : ECRYPT_ctx :=
  set_nlfsr_word ctx (<[nlfsr_slot ctx ith_word := v]> (nlfsr_word ctx)).

(** ** Key setup *)

(** First loop of the 128-bit branch: [k] into slots 0.., 12.., 20... *)
Definition key128_k (key : list Z) (w : list Z) (idx : nat) : list Z :=
  let key_word := U8TO32_LITTLE key (idx * 4) in
  <[(0 + idx)%nat := key_word]>
    (<[(12 + idx)%nat := key_word]> (<[(20 + idx)%nat := key_word]> w)).

(** Second loop of the 128-bit branch: the swapped halves [k']. *)
Definition key128_kswap (key : list Z) (w : list Z) (idx : nat) : list Z :=
  let key_word := U8TO32_LITTLE key (8 + idx * 4) in
  let w :=
    <[(4 + idx)%nat := key_word]>
      (<[(16 + idx)%nat := key_word]> (<[(28 + idx)%nat := key_word]> w)) in
  let key_word := U8TO32_LITTLE key (idx * 4) in
  <[(6 + idx)%nat := key_word]>
    (<[(18 + idx)%nat := key_word]> (<[(30 + idx)%nat := key_word]> w)).

(** The loop of the 256-bit branch. *)
Definition key256_k (key : list Z) (w : list Z) (idx : nat) : list Z :=
  let key_word := U8TO32_LITTLE key (idx * 4) in
  let w := <[(0 + idx)%nat := key_word]> (<[(8 + idx)%nat := key_word]> w) in
  <[(16 + idx)%nat := key_word]> w.

(** [for (idx = 0; idx < DRAGON_NLFSR_SIZE; idx++) dst[idx] = src[idx];] *)
Definition copy_words (src dst : list Z) : list Z :=
  fold_left (fun d idx => <[idx := nth idx src 0]> d)
    (seq 0 (Z.to_nat DRAGON_NLFSR_SIZE)) dst.

(** The body of [ECRYPT_keysetup] below its [assert]. *)
Definition keysetup_body (ctx : ECRYPT_ctx) (key : list Z) (keysize ivsize : Z)
  : ECRYPT_ctx :=
  let ctx := set_nlfsr_offset ctx 0 in
  let ctx := set_key_size ctx keysize in
  let ctx := set_full_rekeying ctx 1 in
  let ctx := set_buffer_index ctx 0 in
  let ctx :=
    if keysize =? 128 then
      let w := fold_left (key128_k key) (seq 0 4) (nlfsr_word ctx) in
      let w := fold_left (key128_kswap key) (seq 0 2) w in
      set_nlfsr_word ctx w
    else
      set_nlfsr_word ctx (fold_left (key256_k key) (seq 0 8) (nlfsr_word ctx)) in
  set_init_state ctx (copy_words (nlfsr_word ctx) (init_state ctx)).

Definition ECRYPT_keysetup (ctx : option ECRYPT_ctx) (key : option (list Z))
    (keysize ivsize : Z) : result ECRYPT_ctx :=
  match ctx, key with
  | Some ctx, Some key => Ret (keysetup_body ctx key keysize ivsize)
  | _, _ => AssertFail
  end.

(** ** The substitution functions

    [G1], [G2], [G3], [H1], [H2], [H3] are macros over the S-box tables of
    [dragon-sboxes.c], which is not under src/.  They are the interface the
    cipher is written against: every theorem below holds for any six
    functions.  Their value is stored into a [u32] variable, hence the
    [wrap32] at each use. *)

Class Sboxes : Type := {
  G1 : Z -> Z; G2 : Z -> Z; G3 : Z -> Z;
  H1 : Z -> Z; H2 : Z -> Z; H3 : Z -> Z
}.

Section Dragon.

Context {sb : Sboxes}.

(** The six working registers [a .. f]. *)
Record regs : Type := mk_regs {
  ra : Z; rb : Z; rc : Z; rd : Z; re : Z; rf : Z
}.

(** [DRAGON_UPDATE(a, b, c, d, e, f)], statement by statement. *)
Definition DRAGON_UPDATE (r : regs) : regs :=
  let '(mk_regs a b c d e f) := r in
  let b := Z.lxor b a in let d := Z.lxor d c in let f := Z.lxor f e in
  let c := add32 c b in let e := add32 e d in let a := add32 a f in
  let f := wrap32 (Z.lxor f (G2 c)) in
  let b := wrap32 (Z.lxor b (G3 e)) in
  let d := wrap32 (Z.lxor d (G1 a)) in
  let e := wrap32 (Z.lxor e (H3 f)) in
  let a := wrap32 (Z.lxor a (H1 b)) in
  let c := wrap32 (Z.lxor c (H2 d)) in
  let b := add32 b e in let d := add32 d a in let f := add32 f c in
  let c := Z.lxor c b in let e := Z.lxor e d in let a := Z.lxor a f in
  mk_regs a b c d e f.

Arguments DRAGON_UPDATE : simpl never.

(** ** IV setup *)

Definition DRAGON_MIXING_STAGES : nat := 16.

(** The restore of the post-keysetup state, taken when [full_rekeying == 0]. *)
Definition iv_restore (ctx : ECRYPT_ctx) : ECRYPT_ctx :=
  if full_rekeying ctx =? 0 then
    set_nlfsr_word ctx (copy_words (init_state ctx) (nlfsr_word ctx))
  else ctx.

(** [w[i] ^= v] *)
Definition xor_at (i : nat) (v : Z) (w : list Z) : list Z :=
  <[i := Z.lxor (nth i w 0) v]> w.

(** First loop of the 128-bit branch: "write iv first". *)
Definition iv128_iv (iv : list Z) (w : list Z) (idx : nat) : list Z :=
  let iv_word := U8TO32_LITTLE iv (idx * 4) in
  let w := <[(8 + idx)%nat := iv_word]> w in
  let w := xor_at (20 + idx) iv_word w in
  xor_at (28 + idx) iv_word w.

(** Second loop of the 128-bit branch: "then iv'". *)
Definition iv128_ivswap (iv : list Z) (w : list Z) (idx : nat) : list Z :=
  let iv_word := U8TO32_LITTLE iv (8 + idx * 4) in
  let w := xor_at (4 + idx) iv_word w in
  let w := xor_at (12 + idx) iv_word w in
  let w := <[(24 + idx)%nat := iv_word]> w in
  let iv_word := U8TO32_LITTLE iv (idx * 4) in
  let w := xor_at (6 + idx) iv_word w in
  let w := xor_at (14 + idx) iv_word w in
  <[(26 + idx)%nat := iv_word]> w.

(** The loop of the 256-bit branch. *)
Definition iv256_iv (iv : list Z) (w : list Z) (idx : nat) : list Z :=
  let iv_word := U8TO32_LITTLE iv (idx * 4) in
  let w := xor_at (8 + idx) iv_word w in
  let w := xor_at (16 + idx) (Z.lxor iv_word 4294967295) w in
  <[(24 + idx)%nat := iv_word]> w.

(** The merge of the IV into the NLFSR. *)
Definition iv_merge (ctx : ECRYPT_ctx) (iv : list Z) : ECRYPT_ctx :=
  if key_size ctx =? 128 then
    let w := fold_left (iv128_iv iv) (seq 0 4) (nlfsr_word ctx) in
    set_nlfsr_word ctx (fold_left (iv128_ivswap iv) (seq 0 2) w)
  else
    set_nlfsr_word ctx (fold_left (iv256_iv iv) (seq 0 8) (nlfsr_word ctx)).

(** One pass of the mixing loop; [e] and [f] live across the passes. *)
Definition mix_stage (s : ECRYPT_ctx * Z * Z) : ECRYPT_ctx * Z * Z :=
  let '(ctx, e, f) := s in
  let a := Z.lxor (Z.lxor (DRAGON_NLFSR_WORD ctx 0) (DRAGON_NLFSR_WORD ctx 24))
                  (DRAGON_NLFSR_WORD ctx 28) in
  let b := Z.lxor (Z.lxor (DRAGON_NLFSR_WORD ctx 1) (DRAGON_NLFSR_WORD ctx 25))
                  (DRAGON_NLFSR_WORD ctx 29) in
  let c := Z.lxor (Z.lxor (DRAGON_NLFSR_WORD ctx 2) (DRAGON_NLFSR_WORD ctx 26))
                  (DRAGON_NLFSR_WORD ctx 30) in
  let d := Z.lxor (Z.lxor (DRAGON_NLFSR_WORD ctx 3) (DRAGON_NLFSR_WORD ctx 27))
                  (DRAGON_NLFSR_WORD ctx 31) in
  let '(mk_regs a b c d e f) := DRAGON_UPDATE (mk_regs a b c d e f) in
  let ctx := set_nlfsr_offset ctx (add32 (nlfsr_offset ctx) (DRAGON_NLFSR_SIZE - 4)) in
  let ctx := DRAGON_NLFSR_WORD_set ctx 0 (Z.lxor a (DRAGON_NLFSR_WORD ctx 20)) in
  let ctx := DRAGON_NLFSR_WORD_set ctx 1 (Z.lxor b (DRAGON_NLFSR_WORD ctx 21)) in
  let ctx := DRAGON_NLFSR_WORD_set ctx 2 (Z.lxor c (DRAGON_NLFSR_WORD ctx 22)) in
  let ctx := DRAGON_NLFSR_WORD_set ctx 3 (Z.lxor d (DRAGON_NLFSR_WORD ctx 23)) in
  (ctx, e, f).

(** The body of [ECRYPT_ivsetup] below its [assert]. *)
Definition ivsetup_body (ctx : ECRYPT_ctx) (iv : list Z) : ECRYPT_ctx :=
  let e := 17522 (* 0x00004472 *) in
  let f := 1634168686 (* 0x61676F6E *) in
  let ctx := iv_restore ctx in
  let ctx := iv_merge ctx iv in
  let '(ctx, e, f) := Nat.iter DRAGON_MIXING_STAGES mix_stage (ctx, e, f) in
  let ctx := set_state_counter0 ctx e in
  let ctx := set_state_counter1 ctx f in
  set_full_rekeying ctx 0.

Definition ECRYPT_ivsetup (ctx : option ECRYPT_ctx) (iv : option (list Z))
  : result ECRYPT_ctx :=
  match ctx, iv with
  | Some ctx, Some iv => Ret (ivsetup_body ctx iv)
  | _, _ => AssertFail
  end.

(** ** The round function *)

(** The slot arguments of one [RND(...)] row of [DRAGON_16RND]. *)
Record locs : Type := mk_locs {
  loc_a : nat; loc_b : nat; loc_c : nat; loc_d : nat; loc_e : nat; loc_fb1 : nat
}.

(** What the unrolled rounds keep between them: the NLFSR words of [ctx],
    the locals [c1] and [c2], and the advancing [in] and [out] pointers
    ([rin]: the words not yet read; [rout]: the words stored so far). *)
Record rnd_state : Type := mk_rnd {
  rw : list Z; rc1 : Z; rc2 : Z; rin : list Z; rout : list Z
}.

(** The loads that open [BASIC_RND], up to and including [(c2++)]: the
    registers, and the value of [c2] after the post-increment. *)
Definition BASIC_RND_load (w : list Z) (l : locs) (c1 c2 : Z) : regs * Z :=
  let a := nth (loc_a l) w 0 in
  let c := nth (loc_c l) w 0 in
  let e := Z.lxor (nth (loc_e l) w 0) c1 in
  let b := Z.lxor (nth (loc_b l) w 0) a in
  let d := Z.lxor (nth (loc_d l) w 0) c in
  let f := Z.lxor (Z.lxor (nth (loc_e l + 1) w 0) e) c2 in
  (mk_regs a b c d e f, add32 c2 1).

(** The rest of [BASIC_RND]: the update network and the two feedback
    stores. *)
Definition BASIC_RND_mix (w : list Z) (l : locs) (r : regs) : list Z * regs :=
  let '(mk_regs a b c d e f) := r in
  let c := add32 c b in
  let e := add32 e d in
  let a := add32 a f in
  let f := wrap32 (Z.lxor f (G2 c)) in
  let b := wrap32 (Z.lxor b (G3 e)) in
  let d := wrap32 (Z.lxor d (G1 a)) in
  let e := wrap32 (Z.lxor e (H3 f)) in
  let a := wrap32 (Z.lxor a (H1 b)) in
  let c := wrap32 (Z.lxor c (H2 d)) in
  let w := <[loc_fb1 l := add32 b e]> w in
  let w := <[(loc_fb1 l + 1)%nat := Z.lxor c (add32 b e)]> w in
  (w, mk_regs a b c d e f).

Definition BASIC_RND (w : list Z) (l : locs) (c1 c2 : Z) : list Z * regs * Z :=
  let '(r, c2) := BASIC_RND_load w l c1 c2 in
  (BASIC_RND_mix w l r, c2).

(** The two words a round contributes: [a ^ (f + c)] and [e ^ (d + a)]. *)
Definition round_key0 (r : regs) : Z := Z.lxor (ra r) (add32 (rf r) (rc r)).
Definition round_key1 (r : regs) : Z := Z.lxor (re r) (add32 (rd r) (ra r)).

Definition KEYSTREAM_RND (s : rnd_state) (l : locs) : rnd_state :=
  let '(w, r, c2) := BASIC_RND (rw s) l (rc1 s) (rc2 s) in
  mk_rnd w (rc1 s) c2 (rin s) (rout s ++ [round_key0 r; round_key1 r]).

Definition PROCESS_RND (s : rnd_state) (l : locs) : rnd_state :=
  let '(w, r, c2) := BASIC_RND (rw s) l (rc1 s) (rc2 s) in
  let in0 := nth 0 (rin s) 0 in
  let in1 := nth 1 (rin s) 0 in
  mk_rnd w (rc1 s) c2 (skipn 2 (rin s))
    (rout s ++ [ Z.lxor (Z.lxor in0 (ra r)) (add32 (rf r) (rc r));
                 Z.lxor (Z.lxor in1 (re r)) (add32 (rd r) (ra r)) ]).

(** The sixteen rows of [DRAGON_16RND], in order. *)
Definition DRAGON_16RND_rows : list locs :=
  [ mk_locs  0  9 16 19 30 30;
    mk_locs 30  7 14 17 28 28;
    mk_locs 28  5 12 15 26 26;
    mk_locs 26  3 10 13 24 24;
    mk_locs 24  1  8 11 22 22;
    mk_locs 22 31  6  9 20 20;
    mk_locs 20 29  4  7 18 18;
    mk_locs 18 27  2  5 16 16;
    mk_locs 16 25  0  3 14 14;
    mk_locs 14 23 30  1 12 12;
    mk_locs 12 21 28 31 10 10;
    mk_locs 10 19 26 29  8  8;
    mk_locs  8 17 24 27  6  6;
    mk_locs  6 15 22 25  4  4;
    mk_locs  4 13 20 23  2  2;
    mk_locs  2 11 18 21  0  0 ].

Definition DRAGON_16RND (RND : rnd_state -> locs -> rnd_state) (s : rnd_state)
  : rnd_state :=
  fold_left RND DRAGON_16RND_rows s.

(** [while (blocks > 0) { DRAGON_16RND(...) blocks -= 16; }] with [blocks] a
    [u32]: the subtraction wraps. *)
Fixpoint blocks_loop (RND : rnd_state -> locs -> rnd_state) (fuel : nat)
    (blocks : Z) (s : rnd_state) : result rnd_state :=
  if blocks >? 0 then
    match fuel with
    | O => OutOfFuel
    | S fuel => blocks_loop RND fuel (wrap32 (blocks - 16)) (DRAGON_16RND RND s)
    end
  else Ret s.

(** The fold of the counter pair back into the context, after the loop. *)
Definition counters_fold_back (ctx : ECRYPT_ctx) (s : rnd_state) : ECRYPT_ctx :=
  let ctx := set_nlfsr_word ctx (rw s) in
  let ctx :=
    if rc2 s <? state_counter1 ctx then set_state_counter0 ctx (add32 (rc1 s) 1)
    else ctx in
  set_state_counter1 ctx (rc2 s).

(** The state the loop of a block call starts from. *)
Definition rnd_start (ctx : ECRYPT_ctx) (input : list Z) : rnd_state :=
  mk_rnd (nlfsr_word ctx) (state_counter0 ctx) (state_counter1 ctx) input [].

(** [ECRYPT_keystream_blocks]: the new context and the keystream words
    stored through [k_ptr]. *)
Definition ECRYPT_keystream_blocks (fuel : nat) (ctx : option ECRYPT_ctx)
    (keystream : out_ptr) (blocks : Z) : result (ECRYPT_ctx * list Z) :=
  match ctx, keystream with
  | Some ctx, Buf =>
      s ← blocks_loop KEYSTREAM_RND fuel blocks (rnd_start ctx []);
      mret (counters_fold_back ctx s, rout s)
  | _, _ => AssertFail
  end.

(** [ECRYPT_process_blocks]; [input] is the message as the [u32] words the
    code reads through [in]. *)
Definition ECRYPT_process_blocks (fuel : nat) (action : Z)
    (ctx : option ECRYPT_ctx) (input : option (list Z)) (output : out_ptr)
    (blocks : Z) : result (ECRYPT_ctx * list Z) :=
  match ctx, input, output with
  | Some ctx, Some input, Buf =>
      s ← blocks_loop PROCESS_RND fuel blocks (rnd_start ctx input);
      mret (counters_fold_back ctx s, rout s)
  | _, _, _ => AssertFail
  end.

(** ** The byte-stream adapter *)

(** [while ((length--) > 0) { ... }], [n] byte requests still to serve;
    [out] holds the bytes stored through [keystream] so far.  The refill
    call writes into [ctx->keystream_buffer]. *)
Fixpoint keystream_bytes_loop (fuel : nat) (n : nat) (ctx : ECRYPT_ctx)
    (out : list Z) : result (ECRYPT_ctx * list Z) :=
  match n with
  | O => Ret (ctx, out)
  | S n =>
      ctx ← (if buffer_index ctx =? 0 then
               '(ctx, ws) ← ECRYPT_keystream_blocks fuel (Some ctx) Buf
                               DRAGON_BUFFER_SIZE;
               mret (set_keystream_buffer ctx (words_to_bytes ws))
             else Ret ctx);
      let byte := nth (Z.to_nat (buffer_index ctx)) (keystream_buffer ctx) 0 in
      let ctx := set_buffer_index ctx (buffer_index ctx mod DRAGON_BUFFER_SIZE) in
      keystream_bytes_loop fuel n ctx (out ++ [byte])
  end.

Definition ECRYPT_keystream_bytes (fuel : nat) (ctx : option ECRYPT_ctx)
    (keystream : out_ptr) (length : Z) : result (ECRYPT_ctx * list Z) :=
  match ctx, keystream with
  | Some ctx, Buf => keystream_bytes_loop fuel (Z.to_nat length) ctx []
  | _, _ => AssertFail
  end.

(** [for (i = 0; i < msglen; i++) output[i] ^= input[i];] *)
Definition xor_input (input output : list Z) (msglen : Z) : list Z :=
  fold_left (fun o i => <[i := Z.lxor (nth i o 0) (nth i input 0)]> o)
    (seq 0 (Z.to_nat msglen)) output.

Definition ECRYPT_process_bytes (fuel : nat) (action : Z)
    (ctx : option ECRYPT_ctx) (input : option (list Z)) (output : out_ptr)
    (msglen : Z) : result (ECRYPT_ctx * list Z) :=
  match ctx, input, output with
  | Some ctx, Some input, Buf =>
      '(ctx, out) ← ECRYPT_keystream_bytes fuel (Some ctx) output msglen;
      mret (ctx, xor_input input out msglen)
  | _, _, _ => AssertFail
  end.

(** ** A session: calls made on one keyed context *)

Inductive api_call : Type :=
| Call_ivsetup (iv : list Z)
| Call_keystream_blocks (blocks : Z)
| Call_process_blocks (action : Z) (input : list Z) (blocks : Z)
| Call_keystream_bytes (length : Z)
| Call_process_bytes (action : Z) (input : list Z) (msglen : Z).

Definition run_call (fuel : nat) (ctx : ECRYPT_ctx) (c : api_call)
  : result ECRYPT_ctx :=
  match c with
  | Call_ivsetup iv => ECRYPT_ivsetup (Some ctx) (Some iv)
  | Call_keystream_blocks blocks =>
      fst <$> ECRYPT_keystream_blocks fuel (Some ctx) Buf blocks
  | Call_process_blocks action input blocks =>
      fst <$> ECRYPT_process_blocks fuel action (Some ctx) (Some input) Buf blocks
  | Call_keystream_bytes len =>
      fst <$> ECRYPT_keystream_bytes fuel (Some ctx) Buf len
  | Call_process_bytes action input msglen =>
      fst <$> ECRYPT_process_bytes fuel action (Some ctx) (Some input) Buf msglen
  end.

Fixpoint run_calls (fuel : nat) (ctx : ECRYPT_ctx) (cs : list api_call)
  : result ECRYPT_ctx :=
  match cs with
  | [] => Ret ctx
  | c :: cs => ctx ← run_call fuel ctx c; run_calls fuel ctx cs
  end.

(** ** Notions the properties are stated with *)

(** The two round macros the code instantiates [DRAGON_16RND] with. *)
Inductive round_macro : (rnd_state -> locs -> rnd_state) -> Prop :=
| macro_keystream : round_macro KEYSTREAM_RND
| macro_process : round_macro PROCESS_RND.

(** [k] sweeps in a row: the state the loop is in after [k] passes. *)
Definition sweeps (RND : rnd_state -> locs -> rnd_state) (k : nat) (s : rnd_state)
  : rnd_state :=
  Nat.iter k (DRAGON_16RND RND) s.

(** What a block call leaves in the counter pair: the low word
    [state_counter[1]] advanced by [blocks], the high word
    [state_counter[0]] advanced by one exactly when the low word ended
    below where it started. *)
Definition counters_folded_back (ctx : ECRYPT_ctx) (blocks : Z)
    (r : result (ECRYPT_ctx * list Z)) : Prop :=
  exists ctx' out,
    r = Ret (ctx', out) /\
    state_counter1 ctx' = wrap32 (state_counter1 ctx + blocks) /\
    state_counter0 ctx' =
      (if state_counter1 ctx' <? state_counter1 ctx
       then wrap32 (state_counter0 ctx + 1) else state_counter0 ctx).

(** Two contexts the mixing cannot tell apart: the same NLFSR words, and
    offsets that agree modulo the NLFSR size. *)
Definition same_window (c c' : ECRYPT_ctx) : Prop :=
  nlfsr_word c = nlfsr_word c' /\ nlfsr_offset c mod 32 = nlfsr_offset c' mod 32.

(** What a mixing stage leaves alone, and what it does to the offset. *)
Definition untouched_by_mixing (c c' : ECRYPT_ctx) : Prop :=
  init_state c' = init_state c /\ key_size c' = key_size c /\
  keystream_buffer c' = keystream_buffer c /\ buffer_index c' = buffer_index c /\
  length (nlfsr_word c') = length (nlfsr_word c).

(** What no call but key setup and IV setup changes. *)
Definition untouched_by_rounds (c c' : ECRYPT_ctx) : Prop :=
  init_state c' = init_state c /\ key_size c' = key_size c /\
  nlfsr_offset c' = nlfsr_offset c /\ full_rekeying c' = full_rekeying c /\
  length (nlfsr_word c') = length (nlfsr_word c).

(** Contexts the round function cannot tell apart. *)
Definition same_core (c c' : ECRYPT_ctx) : Prop :=
  nlfsr_word c = nlfsr_word c' /\
  state_counter0 c = state_counter0 c' /\
  state_counter1 c = state_counter1 c'.

(** Two outcomes that agree on what a caller can see of the cipher: the
    bytes or words delivered, and the core of the context left behind. *)
Definition same_outcome (r r' : result (ECRYPT_ctx * list Z)) : Prop :=
  match r, r' with
  | Ret (c, out), Ret (c', out') => same_core c c' /\ out = out'
  | AssertFail, AssertFail => True
  | OutOfFuel, OutOfFuel => True
  | _, _ => False
  end.

(** What one byte request does to a context whose cursor is 0: a refill of
    the staging buffer by a 16-block call ... *)
Definition refill (c : ECRYPT_ctx) : ECRYPT_ctx :=
  let s := sweeps KEYSTREAM_RND 1 (rnd_start c []) in
  set_keystream_buffer (counters_fold_back c s) (words_to_bytes (rout s)).

(** ... and the cursor update, from 0. *)
Definition serve_byte (c : ECRYPT_ctx) : ECRYPT_ctx :=
  set_buffer_index (refill c) 0.

(** The bytes [n] requests deliver, and the context they leave, cursor 0. *)
Fixpoint served (n : nat) (c : ECRYPT_ctx) : list Z :=
  match n with
  | O => []
  | S n => nth 0 (keystream_buffer (refill c)) 0 :: served n (serve_byte c)
  end.

Fixpoint after_bytes (n : nat) (c : ECRYPT_ctx) : ECRYPT_ctx :=
  match n with
  | O => c
  | S n => after_bytes n (serve_byte c)
  end.

(** Is the call an IV setup? *)
Definition is_ivsetup (call : api_call) : bool :=
  match call with Call_ivsetup _ => true | _ => false end.

(** The invariant of a session under one key: the snapshot [K] and the key
    size [ks] stay, the NLFSR keeps its [n] words, the offset is a multiple
    of 32 and the cursor of the staging buffer is 0. *)
Definition keyed (K : list Z) (ks : Z) (n : nat) (c : ECRYPT_ctx) : Prop :=
  init_state c = K /\ key_size c = ks /\ length (nlfsr_word c) = n /\
  nlfsr_offset c mod 32 = 0 /\ buffer_index c = 0.

(** Equal cores and cursors at 0 give equal keystream, by blocks and by
    bytes. *)
Definition same_keystream (fuel : nat) (s s' : ECRYPT_ctx) (blocks len : Z) : Prop :=
  (exists c c' ks,
      ECRYPT_keystream_blocks fuel (Some s) Buf blocks = Ret (c, ks) /\
      ECRYPT_keystream_blocks fuel (Some s') Buf blocks = Ret (c', ks) /\
      length ks = (32 * Z.to_nat (blocks / 16))%nat /\ same_core c c') /\
  (exists c c' bytes,
      ECRYPT_keystream_bytes fuel (Some s) Buf len = Ret (c, bytes) /\
      ECRYPT_keystream_bytes fuel (Some s') Buf len = Ret (c', bytes) /\
      length bytes = Z.to_nat len /\ same_core c c').

(** [input] combined word by word with the keystream [ks]. *)
Definition xor_stream (input ks : list Z) : list Z :=
  imap (fun i k => Z.lxor (nth i input 0) k) ks.

(** A processing run and a keystream run that go in step on [input]. *)
Definition in_step (input : list Z) (sp sk : rnd_state) : Prop :=
  rw sp = rw sk /\ rc1 sp = rc1 sk /\ rc2 sp = rc2 sk /\
  rin sp = skipn (length (rout sk)) input /\
  rout sp = xor_stream input (rout sk).

(** ** Further notions: values, rounds of a call, documented layouts *)

(** A value that fits a [u32], a [u8]. *)
Definition is_u32 (x : Z) : Prop := 0 <= x < 2 ^ 32.

Definition is_u8 (x : Z) : Prop := 0 <= x < 256.

(** The state of the loop of a block call after its first [i] micro-rounds:
    [i / 16] whole sweeps, then the first [i mod 16] rows of the next. *)
Definition after_rounds (RND : rnd_state -> locs -> rnd_state) (i : nat)
    (s : rnd_state) : rnd_state :=
  fold_left RND (firstn (Nat.modulo i 16) DRAGON_16RND_rows)
    (sweeps RND (Nat.div i 16) s).

(** [output[i] ^= input[i]] for every byte of [out]. *)
Definition xor_bytes (input out : list Z) : list Z :=
  imap (fun i o => Z.lxor o (nth i input 0)) out.

(** The NLFSR as the comments of key and IV setup give it for 128-bit keys,
    [k | k' ^ iv' | iv | k ^ iv' | k' | k ^ iv | iv' | k' ^ iv], where [k']
    and [iv'] are [k] and [iv] with their halves swapped. *)
Definition layout128 (key iv : list Z) : list Z :=
  let k0 := U8TO32_LITTLE key 0 in let k1 := U8TO32_LITTLE key 4 in
  let k2 := U8TO32_LITTLE key 8 in let k3 := U8TO32_LITTLE key 12 in
  let v0 := U8TO32_LITTLE iv 0 in let v1 := U8TO32_LITTLE iv 4 in
  let v2 := U8TO32_LITTLE iv 8 in let v3 := U8TO32_LITTLE iv 12 in
  [ k0; k1; k2; k3;
    Z.lxor k2 v2; Z.lxor k3 v3; Z.lxor k0 v0; Z.lxor k1 v1;
    v0; v1; v2; v3;
    Z.lxor k0 v2; Z.lxor k1 v3; Z.lxor k2 v0; Z.lxor k3 v1;
    k2; k3; k0; k1;
    Z.lxor k0 v0; Z.lxor k1 v1; Z.lxor k2 v2; Z.lxor k3 v3;
    v2; v3; v0; v1;
    Z.lxor k2 v0; Z.lxor k3 v1; Z.lxor k0 v2; Z.lxor k1 v3 ].

(** The words [0 .. n-1] of a byte buffer. *)
Definition words_of (p : list Z) (n : nat) : list Z :=
  map (fun i => U8TO32_LITTLE p (4 * i)) (seq 0 n).

(** The NLFSR as the comments give it for 256-bit keys,
    [k | k ^ iv | {k ^ iv} | iv], [{x}] the bitwise complement. *)
Definition layout256 (key iv : list Z) : list Z :=
  words_of key 8 ++
  zip_with Z.lxor (words_of key 8) (words_of iv 8) ++
  map (fun x => Z.lxor x 4294967295)
      (zip_with Z.lxor (words_of key 8) (words_of iv 8)) ++
  words_of iv 8.

(** The number of key or IV bytes the setup reads for a given key size. *)
Definition bytes_read (keysize : Z) : nat := if keysize =? 128 then 16 else 32.

(** Two round states that differ only in the words already stored: [s] has
    stored [p] before what [s'] has stored (the input pointer is not read
    by keystream rounds). *)
Definition stored_before (p : list Z) (s s' : rnd_state) : Prop :=
  rw s = rw s' /\ rc1 s = rc1 s' /\ rc2 s = rc2 s' /\ rout s = p ++ rout s'.

End Dragon.

(** ** Sample data, to run the model

    The theorems quantify over the substitution functions; to evaluate the
    model on concrete inputs some functions have to stand in for them. *)

Definition sample_sbox (k x : Z) : Z := wrap32 (x * 2654435761 + k).

Definition zero_ctx : ECRYPT_ctx :=
  mk_ctx (repeat 0 32) 0 0 (repeat 0 32) 0 0 (repeat 0 128) 0 0.

(** A context as a caller may hand it to key setup without clearing it. *)
Definition stale_ctx : ECRYPT_ctx :=
  mk_ctx (repeat 3735928559 32) 7 9 (repeat 195948557 32) 5 12 (repeat 170 128) 3 0.

Definition sample_key : list Z := map Z.of_nat (seq 1 32).
Definition sample_iv : list Z := map Z.of_nat (seq 101 32).

Definition sample_sboxes : Sboxes :=
  {| G1 := sample_sbox 1; G2 := sample_sbox 2; G3 := sample_sbox 3;
     H1 := sample_sbox 4; H2 := sample_sbox 5; H3 := sample_sbox 6 |}.

(** A context after key setup (on a context that was not cleared) and after
    the first IV setup. *)
Definition sample_keyed : ECRYPT_ctx := keysetup_body stale_ctx sample_key 128 128.

Definition sample_started : ECRYPT_ctx :=
  ivsetup_body (sb := sample_sboxes) sample_keyed sample_iv.

(** A session on [sample_keyed], and one that follows the first IV setup. *)
Definition sample_calls : list api_call :=
  [ Call_ivsetup sample_iv; Call_keystream_blocks 16; Call_keystream_bytes 3;
    Call_process_blocks 0 (repeat 5 32) 16; Call_ivsetup sample_key;
    Call_process_bytes 1 [1; 2] 2 ].

Definition sample_later_calls : list api_call :=
  [ Call_keystream_blocks 32; Call_ivsetup sample_key; Call_keystream_bytes 5 ].

Definition sample_session_end : ECRYPT_ctx :=
  match run_calls (sb := sample_sboxes) 4 sample_keyed sample_calls with
  | Ret c => c
  | _ => zero_ctx
  end.

Definition sample_later : ECRYPT_ctx :=
  match run_calls (sb := sample_sboxes) 4 sample_started sample_later_calls with
  | Ret c => c
  | _ => zero_ctx
  end.

Definition sample_msg : list Z := map Z.of_nat (seq 1000 32).

Section Properties.

Context {sb : Sboxes}.

(** ** Arithmetic on words *)

Lemma wrap32_range x : 0 <= wrap32 x < 2 ^ 32.
Proof. unfold wrap32. apply Z.mod_pos_bound. lia. Qed.

Lemma wrap32_small x : 0 <= x < 2 ^ 32 -> wrap32 x = x.
Proof. intros H. unfold wrap32. apply Z.mod_small. exact H. Qed.

Lemma wrap32_idem x : wrap32 (wrap32 x) = wrap32 x.
Proof. apply wrap32_small, wrap32_range. Qed.

Lemma wrap32_add_l x y : wrap32 (wrap32 x + y) = wrap32 (x + y).
Proof. unfold wrap32. apply Zplus_mod_idemp_l. Qed.

Lemma wrap32_mod32 x : wrap32 x mod 32 = x mod 32.
Proof.
  unfold wrap32. apply Z.mod_mod_divide.
  exists (2 ^ 27). reflexivity.
Qed.

Lemma land31_mod32 x : Z.land x 31 = x mod 32.
Proof. change 31 with (Z.ones 5). rewrite Z.land_ones by lia. reflexivity. Qed.

Lemma lxor_cancel_r x k : Z.lxor (Z.lxor x k) k = x.
Proof. rewrite Z.lxor_assoc, Z.lxor_nilpotent, Z.lxor_0_r. reflexivity. Qed.

(** ** Lists as arrays *)

(** Projections of a context built by the setters. *)
Ltac ctx_fields :=
  cbn [nlfsr_word state_counter0 state_counter1 init_state key_size nlfsr_offset
       keystream_buffer buffer_index full_rekeying
       set_nlfsr_word set_state_counter0 set_state_counter1 set_init_state
       set_key_size set_nlfsr_offset set_keystream_buffer set_buffer_index
       set_full_rekeying].

(** A list of known length 32, taken apart into its elements. *)
Ltac explode32 l H :=
  do 32 (destruct l as [|? l]; simpl in H; [discriminate H | injection H as H]);
  destruct l; simpl in H; [clear H | discriminate H].

Lemma copy_words_full (src dst : list Z) :
  length src = 32%nat -> length dst = 32%nat -> copy_words src dst = src.
Proof.
  intros Hs Hd. explode32 src Hs. explode32 dst Hd. reflexivity.
Qed.

Lemma copy_words_length (src dst : list Z) :
  length (copy_words src dst) = length dst.
Proof.
  unfold copy_words. generalize (seq 0 (Z.to_nat DRAGON_NLFSR_SIZE)).
  intros idxs. revert dst.
  induction idxs as [|i idxs IH]; intros dst; simpl; [reflexivity|].
  rewrite IH. apply length_insert.
Qed.

(** ** The round function: what a micro-round and a sweep change *)

Lemma BASIC_RND_c2 w l c1 c2 : snd (BASIC_RND w l c1 c2) = add32 c2 1.
Proof. reflexivity. Qed.

Lemma BASIC_RND_length w l c1 c2 :
  length (fst (fst (BASIC_RND w l c1 c2))) = length w.
Proof.
  unfold BASIC_RND, BASIC_RND_load, BASIC_RND_mix. simpl.
  rewrite !length_insert. reflexivity.
Qed.

Lemma round_rc1 RND s l : round_macro RND -> rc1 (RND s l) = rc1 s.
Proof.
  intros [|]; [unfold KEYSTREAM_RND | unfold PROCESS_RND];
    destruct (BASIC_RND _ _ _ _) as [[w r] c2]; reflexivity.
Qed.

Lemma round_rc2 RND s l : round_macro RND -> rc2 (RND s l) = add32 (rc2 s) 1.
Proof.
  intros [|]; [unfold KEYSTREAM_RND | unfold PROCESS_RND];
    pose proof (BASIC_RND_c2 (rw s) l (rc1 s) (rc2 s)) as Hc;
    destruct (BASIC_RND _ _ _ _) as [[w r] c2]; exact Hc.
Qed.

Lemma round_rw_length RND s l :
  round_macro RND -> length (rw (RND s l)) = length (rw s).
Proof.
  intros [|]; [unfold KEYSTREAM_RND | unfold PROCESS_RND];
    pose proof (BASIC_RND_length (rw s) l (rc1 s) (rc2 s)) as Hc;
    destruct (BASIC_RND _ _ _ _) as [[w r] c2]; exact Hc.
Qed.

Lemma round_rout_length RND s l :
  round_macro RND -> length (rout (RND s l)) = (length (rout s) + 2)%nat.
Proof.
  intros [|]; [unfold KEYSTREAM_RND | unfold PROCESS_RND];
    destruct (BASIC_RND _ _ _ _) as [[w r] c2]; simpl;
    rewrite length_app; reflexivity.
Qed.

(** Any run of micro-rounds. *)
Lemma rounds_rc1 RND ls s :
  round_macro RND -> rc1 (fold_left RND ls s) = rc1 s.
Proof.
  intros HR. revert s. induction ls as [|l ls IH]; intros s; simpl; [reflexivity|].
  rewrite IH. apply round_rc1, HR.
Qed.

Lemma rounds_rc2 RND ls s :
  round_macro RND ->
  wrap32 (rc2 (fold_left RND ls s)) = wrap32 (rc2 s + Z.of_nat (length ls)).
Proof.
  intros HR. revert s. induction ls as [|l ls IH]; intros s.
  - simpl. rewrite Z.add_0_r. reflexivity.
  - simpl fold_left. rewrite IH, (round_rc2 _ _ _ HR).
    unfold add32. rewrite wrap32_add_l. f_equal. simpl length. lia.
Qed.

Lemma rounds_rc2_pos RND ls s :
  round_macro RND -> ls <> [] ->
  rc2 (fold_left RND ls s) = wrap32 (rc2 s + Z.of_nat (length ls)).
Proof.
  intros HR Hne. rewrite <- (rounds_rc2 RND ls s HR).
  destruct (exists_last Hne) as [ls' [l ->]].
  rewrite fold_left_app. simpl. rewrite (round_rc2 _ _ _ HR).
  unfold add32. rewrite wrap32_idem. reflexivity.
Qed.

Lemma rounds_rw_length RND ls s :
  round_macro RND -> length (rw (fold_left RND ls s)) = length (rw s).
Proof.
  intros HR. revert s. induction ls as [|l ls IH]; intros s; simpl; [reflexivity|].
  rewrite IH. apply round_rw_length, HR.
Qed.

Lemma rounds_rout_length RND ls s :
  round_macro RND ->
  length (rout (fold_left RND ls s)) = (length (rout s) + 2 * length ls)%nat.
Proof.
  intros HR. revert s. induction ls as [|l ls IH]; intros s; simpl; [lia|].
  rewrite IH, (round_rout_length _ _ _ HR). lia.
Qed.

(** One sweep of sixteen micro-rounds. *)
Lemma sweep_rc1 RND s : round_macro RND -> rc1 (DRAGON_16RND RND s) = rc1 s.
Proof. intros HR. apply rounds_rc1, HR. Qed.

Lemma sweep_rc2 RND s :
  round_macro RND -> rc2 (DRAGON_16RND RND s) = wrap32 (rc2 s + 16).
Proof.
  intros HR. unfold DRAGON_16RND.
  rewrite (rounds_rc2_pos _ _ _ HR) by discriminate. reflexivity.
Qed.

Lemma sweep_rw_length RND s :
  round_macro RND -> length (rw (DRAGON_16RND RND s)) = length (rw s).
Proof. intros HR. apply rounds_rw_length, HR. Qed.

Lemma sweep_rout_length RND s :
  round_macro RND ->
  length (rout (DRAGON_16RND RND s)) = (length (rout s) + 32)%nat.
Proof. intros HR. unfold DRAGON_16RND. rewrite (rounds_rout_length _ _ _ HR). reflexivity. Qed.

Lemma sweeps_S RND k s : sweeps RND (S k) s = sweeps RND k (DRAGON_16RND RND s).
Proof. unfold sweeps. apply Nat.iter_succ_r. Qed.

Lemma sweeps_rc1 RND k s : round_macro RND -> rc1 (sweeps RND k s) = rc1 s.
Proof.
  intros HR. induction k as [|k IH]; [reflexivity|].
  unfold sweeps in *. simpl. rewrite (sweep_rc1 _ _ HR). exact IH.
Qed.

Lemma sweeps_rc2 RND k s :
  round_macro RND ->
  wrap32 (rc2 (sweeps RND k s)) = wrap32 (rc2 s + 16 * Z.of_nat k).
Proof.
  intros HR. induction k as [|k IH].
  - simpl. rewrite Z.add_0_r. reflexivity.
  - unfold sweeps in *. simpl Nat.iter. rewrite (sweep_rc2 _ _ HR), wrap32_idem.
    rewrite <- wrap32_add_l, IH, wrap32_add_l. f_equal. lia.
Qed.

Lemma sweeps_rc2_pos RND k s :
  round_macro RND -> (0 < k)%nat ->
  rc2 (sweeps RND k s) = wrap32 (rc2 s + 16 * Z.of_nat k).
Proof.
  intros HR Hk. rewrite <- (sweeps_rc2 _ _ _ HR).
  destruct k as [|k]; [lia|].
  unfold sweeps. simpl Nat.iter. rewrite (sweep_rc2 _ _ HR), wrap32_idem. reflexivity.
Qed.

Lemma sweeps_rw_length RND k s :
  round_macro RND -> length (rw (sweeps RND k s)) = length (rw s).
Proof.
  intros HR. induction k as [|k IH]; [reflexivity|].
  unfold sweeps in *. simpl. rewrite (sweep_rw_length _ _ HR). exact IH.
Qed.

Lemma sweeps_rout_length RND k s :
  round_macro RND ->
  length (rout (sweeps RND k s)) = (length (rout s) + 32 * k)%nat.
Proof.
  intros HR. induction k as [|k IH]; [simpl; lia|].
  unfold sweeps in *. simpl Nat.iter. rewrite (sweep_rout_length _ _ HR), IH. lia.
Qed.

(** The loop: a multiple of 16 runs that many sixteenths of passes ... *)
Lemma blocks_loop_multiple RND (k fuel : nat) s :
  16 * Z.of_nat k < 2 ^ 32 -> (k <= fuel)%nat ->
  blocks_loop RND fuel (16 * Z.of_nat k) s = Ret (sweeps RND k s).
Proof.
  revert fuel s. induction k as [|k IH]; intros fuel s Hr Hf.
  - destruct fuel; reflexivity.
  - destruct fuel as [|fuel]; [lia|].
    cbn [blocks_loop].
    destruct (Z.gtb_spec (16 * Z.of_nat (S k)) 0) as [Hpos|Hpos]; [|lia].
    replace (wrap32 (16 * Z.of_nat (S k) - 16)) with (16 * Z.of_nat k)
      by (rewrite wrap32_small; lia).
    rewrite IH by lia. rewrite sweeps_S. reflexivity.
Qed.

(** ... and any other count keeps the loop running: a [u32] that is not a
    multiple of 16 never reaches 0 in steps of 16. *)
Lemma blocks_loop_diverges RND (fuel : nat) blocks s :
  0 <= blocks < 2 ^ 32 -> blocks mod 16 <> 0 ->
  blocks_loop RND fuel blocks s = OutOfFuel.
Proof.
  revert blocks s. induction fuel as [|fuel IH]; intros blocks s Hr Hm.
  - cbn [blocks_loop]. destruct (Z.gtb_spec blocks 0) as [Hpos|Hpos]; [reflexivity|].
    assert (blocks = 0) as -> by lia. contradiction Hm. reflexivity.
  - cbn [blocks_loop]. destruct (Z.gtb_spec blocks 0) as [Hpos|Hpos].
    + apply IH; [apply wrap32_range|].
      unfold wrap32. rewrite Z.mod_mod_divide by (exists (2 ^ 28); reflexivity).
      replace (blocks - 16) with (blocks + (-1) * 16) by lia.
      rewrite Z.mod_add by lia. exact Hm.
    + assert (blocks = 0) as -> by lia. contradiction Hm. reflexivity.
Qed.

(** ** Block calls: counters and the block count *)

Lemma counters_fold_back_spec RND ctx input k :
  round_macro RND -> (0 < k)%nat ->
  state_counter1 (counters_fold_back ctx (sweeps RND k (rnd_start ctx input))) =
    wrap32 (state_counter1 ctx + 16 * Z.of_nat k) /\
  state_counter0 (counters_fold_back ctx (sweeps RND k (rnd_start ctx input))) =
    (if state_counter1 (counters_fold_back ctx (sweeps RND k (rnd_start ctx input)))
        <? state_counter1 ctx
     then wrap32 (state_counter0 ctx + 1) else state_counter0 ctx).
Proof.
  intros HR Hk.
  pose proof (sweeps_rc2_pos RND k (rnd_start ctx input) HR Hk) as Hlo.
  pose proof (sweeps_rc1 RND k (rnd_start ctx input) HR) as Hhi.
  revert Hlo Hhi. generalize (sweeps RND k (rnd_start ctx input)).
  intros s Hlo Hhi. cbn [rnd_start rc1 rc2] in Hlo, Hhi.
  unfold counters_fold_back. ctx_fields. rewrite Hhi, Hlo.
  destruct (_ <? _); ctx_fields; auto.
Qed.

Lemma keystream_blocks_returns (fuel : nat) ctx (k : nat) :
  16 * Z.of_nat k < 2 ^ 32 -> (k <= fuel)%nat ->
  ECRYPT_keystream_blocks fuel (Some ctx) Buf (16 * Z.of_nat k) =
    Ret (counters_fold_back ctx (sweeps KEYSTREAM_RND k (rnd_start ctx [])),
         rout (sweeps KEYSTREAM_RND k (rnd_start ctx []))).
Proof.
  intros Hr Hf. unfold ECRYPT_keystream_blocks.
  rewrite blocks_loop_multiple by assumption. reflexivity.
Qed.

Lemma process_blocks_returns (fuel : nat) action ctx input (k : nat) :
  16 * Z.of_nat k < 2 ^ 32 -> (k <= fuel)%nat ->
  ECRYPT_process_blocks fuel action (Some ctx) (Some input) Buf (16 * Z.of_nat k) =
    Ret (counters_fold_back ctx (sweeps PROCESS_RND k (rnd_start ctx input)),
         rout (sweeps PROCESS_RND k (rnd_start ctx input))).
Proof.
  intros Hr Hf. unfold ECRYPT_process_blocks.
  rewrite blocks_loop_multiple by assumption. reflexivity.
Qed.

Lemma multiple_of_16 blocks :
  0 <= blocks -> blocks mod 16 = 0 -> blocks = 16 * Z.of_nat (Z.to_nat (blocks / 16)).
Proof.
  intros H0 Hm. rewrite Z2Nat.id by (apply Z.div_pos; lia).
  apply Z.div_exact in Hm; lia.
Qed.

(** C7: a block call with a positive multiple of 16 returns; the stored
    low counter word is the old one plus the block count modulo 2^32; the
    high word is incremented once exactly when the low word ended below its
    value before the call; no micro-round touches the high word; and the
    counter value a micro-round folds into [f] is the one before the
    post-increment. *)
Theorem counter_fold_back_once_per_call
    (fuel : nat) (ctx : ECRYPT_ctx) (action : Z) (input : list Z) (blocks : Z) :
  0 < blocks < 2 ^ 32 -> blocks mod 16 = 0 ->
  (Z.to_nat (blocks / 16) <= fuel)%nat ->
  counters_folded_back ctx blocks
    (ECRYPT_keystream_blocks fuel (Some ctx) Buf blocks) /\
  counters_folded_back ctx blocks
    (ECRYPT_process_blocks fuel action (Some ctx) (Some input) Buf blocks) /\
  (forall RND rows s, round_macro RND -> rc1 (fold_left RND rows s) = rc1 s) /\
  (forall w l c1 c2,
      rf (fst (BASIC_RND_load w l c1 c2)) =
        Z.lxor (Z.lxor (nth (loc_e l + 1) w 0) (Z.lxor (nth (loc_e l) w 0) c1)) c2 /\
      snd (BASIC_RND_load w l c1 c2) = wrap32 (c2 + 1)).
Proof.
  intros Hb Hm Hf.
  pose proof (multiple_of_16 blocks ltac:(lia) Hm) as Hk.
  set (k := Z.to_nat (blocks / 16)) in *.
  assert (0 < k)%nat as Hkpos by lia.
  clearbody k. subst blocks.
  split; [|split; [|split]].
  - unfold counters_folded_back.
    rewrite keystream_blocks_returns by lia.
    eexists _, _. split; [reflexivity|].
    apply (counters_fold_back_spec KEYSTREAM_RND ctx [] k macro_keystream Hkpos).
  - unfold counters_folded_back.
    rewrite process_blocks_returns by lia.
    eexists _, _. split; [reflexivity|].
    apply (counters_fold_back_spec PROCESS_RND ctx input k macro_process Hkpos).
  - intros RND rows s HR. apply rounds_rc1, HR.
  - intros w l c1 c2. split; reflexivity.
Qed.

(** After [k] passes the loop of a block call is in state [sweeps RND k s]
    with [32 * k] words stored, and for a count that is not a multiple of 16
    it still has a non-zero count to go. *)
Lemma blocks_loop_passes RND (k fuel : nat) blocks s :
  0 <= blocks < 2 ^ 32 -> blocks mod 16 <> 0 ->
  blocks_loop RND (k + fuel) blocks s =
    blocks_loop RND fuel (wrap32 (blocks - 16 * Z.of_nat k)) (sweeps RND k s) /\
  0 < wrap32 (blocks - 16 * Z.of_nat k).
Proof.
  intros Hr Hm.
  assert (forall j, wrap32 (blocks - 16 * j) mod 16 <> 0) as Hnz.
  { intros j. unfold wrap32.
    rewrite Z.mod_mod_divide by (exists (2 ^ 28); reflexivity).
    replace (blocks - 16 * j) with (blocks + (- j) * 16) by lia.
    rewrite Z.mod_add by lia. exact Hm. }
  split.
  - revert blocks s Hr Hm Hnz. induction k as [|k IH]; intros blocks s Hr Hm Hnz.
    + simpl. rewrite Z.sub_0_r, wrap32_small by lia. reflexivity.
    + cbn [Nat.add blocks_loop].
      destruct (Z.gtb_spec blocks 0) as [Hpos|Hpos].
      * rewrite IH.
        -- rewrite sweeps_S. f_equal. unfold wrap32.
           rewrite Zminus_mod_idemp_l. f_equal. lia.
        -- apply wrap32_range.
        -- specialize (Hnz 1). rewrite Z.mul_1_r in Hnz. exact Hnz.
        -- intros j. unfold wrap32 at 2. unfold wrap32.
           rewrite Zminus_mod_idemp_l.
           replace (blocks - 16 - 16 * j) with (blocks - 16 * (j + 1)) by lia.
           apply Hnz.
      * assert (blocks = 0) as -> by lia. contradiction Hm. reflexivity.
  - pose proof (wrap32_range (blocks - 16 * Z.of_nat k)) as Hw.
    specialize (Hnz (Z.of_nat k)).
    destruct (Z.eq_dec (wrap32 (blocks - 16 * Z.of_nat k)) 0) as [E|E]; [|lia].
    rewrite E in Hnz. contradiction Hnz. reflexivity.
Qed.

(** C3 (as the code has it): the block calls assert the pointers only.  A
    block count that is not a multiple of 16 raises no assertion; the call
    enters the round loop, each pass stores a full 16 blocks (32 words), and
    the count, decremented by 16 in [u32], never reaches 0, so the call
    does not return. *)
Theorem block_count_is_not_checked
    (fuel : nat) (ctx : ECRYPT_ctx) (action : Z) (input : list Z) (blocks : Z) :
  0 <= blocks < 2 ^ 32 -> blocks mod 16 <> 0 ->
  ECRYPT_keystream_blocks fuel (Some ctx) Buf blocks = OutOfFuel /\
  ECRYPT_process_blocks fuel action (Some ctx) (Some input) Buf blocks = OutOfFuel /\
  (forall RND k n, round_macro RND ->
     blocks_loop RND (k + n) blocks (rnd_start ctx input) =
       blocks_loop RND n (wrap32 (blocks - 16 * Z.of_nat k))
         (sweeps RND k (rnd_start ctx input)) /\
     0 < wrap32 (blocks - 16 * Z.of_nat k) /\
     length (rout (sweeps RND k (rnd_start ctx input))) = (32 * k)%nat).
Proof.
  intros Hr Hm. split; [|split].
  - unfold ECRYPT_keystream_blocks.
    rewrite blocks_loop_diverges by assumption. reflexivity.
  - unfold ECRYPT_process_blocks.
    rewrite blocks_loop_diverges by assumption. reflexivity.
  - intros RND k n HR.
    destruct (blocks_loop_passes RND k n blocks (rnd_start ctx input) Hr Hm)
      as [Hloop Hleft].
    split; [exact Hloop|]. split; [exact Hleft|].
    rewrite (sweeps_rout_length _ _ _ HR). reflexivity.
Qed.

(** ** Key setup *)

(** C2 (as the code has it): key setup validates neither size.  With
    non-null pointers it always returns an initialised context: a key size
    other than 128 takes the 256-bit layout and is recorded in [key_size]
    as given; [ivsize] is ignored; the only failure is the assertion on a
    null context or key pointer. *)
Theorem keysetup_checks_no_size
    (ctx : ECRYPT_ctx) (key : list Z) (keysize ivsize ivsize' : Z) :
  keysize <> 128 ->
  ECRYPT_keysetup (Some ctx) (Some key) keysize ivsize =
    Ret (set_key_size (keysetup_body ctx key 256 ivsize') keysize) /\
  (forall ks,
      ECRYPT_keysetup (Some ctx) (Some key) ks ivsize =
      ECRYPT_keysetup (Some ctx) (Some key) ks ivsize') /\
  (forall octx okey ks,
      ECRYPT_keysetup octx okey ks ivsize = AssertFail <->
      octx = None \/ okey = None).
Proof.
  intros Hks. split; [|split].
  - unfold ECRYPT_keysetup, keysetup_body.
    destruct (Z.eqb_spec keysize 128) as [E|_]; [contradiction|].
    reflexivity.
  - intros ks. reflexivity.
  - intros [c|] [k|] ks; simpl; split; intros Hf;
      try discriminate; try (destruct Hf; discriminate); auto.
Qed.

(** C8 (as the code has it): with a 128-bit key, key setup does not write
    slots 8..11 and 24..27 of the NLFSR: after the call they hold what the
    context held before it, and the snapshot is a copy of the NLFSR, those
    slots included. *)
Theorem keysetup128_leaves_iv_slots
    (ctx : ECRYPT_ctx) (key : list Z) (ivsize : Z) (i : nat) :
  (8 <= i < 12 \/ 24 <= i < 28)%nat ->
  length (nlfsr_word ctx) = 32%nat -> length (init_state ctx) = 32%nat ->
  exists ctx',
    ECRYPT_keysetup (Some ctx) (Some key) 128 ivsize = Ret ctx' /\
    nth i (nlfsr_word ctx') 0 = nth i (nlfsr_word ctx) 0 /\
    init_state ctx' = nlfsr_word ctx'.
Proof.
  intros Hi Hw Hs.
  destruct ctx as [w c0 c1 ini ks off buf bi fr]. simpl in Hw, Hs.
  explode32 w Hw. explode32 ini Hs.
  eexists. split; [reflexivity|]. split.
  - assert (i = 8 \/ i = 9 \/ i = 10 \/ i = 11 \/
            i = 24 \/ i = 25 \/ i = 26 \/ i = 27)%nat as Hcases by lia.
    repeat (destruct Hcases as [->|Hcases]; [reflexivity|]).
    subst i. reflexivity.
  - reflexivity.
Qed.

(** ** The NLFSR offset and the mixing stages *)

Lemma DRAGON_OFFSET_mod ctx i :
  DRAGON_OFFSET ctx i (DRAGON_NLFSR_SIZE - 1) = (nlfsr_offset ctx + i) mod 32.
Proof.
  unfold DRAGON_OFFSET. change (DRAGON_NLFSR_SIZE - 1) with 31.
  rewrite land31_mod32, wrap32_mod32. reflexivity.
Qed.

Lemma add32_mod32 x k : add32 x k mod 32 = (x mod 32 + k) mod 32.
Proof. unfold add32. rewrite wrap32_mod32, Zplus_mod_idemp_l. reflexivity. Qed.

Lemma same_window_slot c c' i : same_window c c' -> nlfsr_slot c i = nlfsr_slot c' i.
Proof.
  intros [_ Ho]. unfold nlfsr_slot. rewrite !DRAGON_OFFSET_mod.
  rewrite <- (Zplus_mod_idemp_l (nlfsr_offset c)), Ho, Zplus_mod_idemp_l.
  reflexivity.
Qed.

Lemma same_window_read c c' i :
  same_window c c' -> DRAGON_NLFSR_WORD c i = DRAGON_NLFSR_WORD c' i.
Proof.
  intros Hc. unfold DRAGON_NLFSR_WORD.
  rewrite (same_window_slot c c' i Hc). destruct Hc as [-> _]. reflexivity.
Qed.

Lemma same_window_write c c' i v v' :
  same_window c c' -> v = v' ->
  same_window (DRAGON_NLFSR_WORD_set c i v) (DRAGON_NLFSR_WORD_set c' i v').
Proof.
  intros Hc ->. unfold DRAGON_NLFSR_WORD_set.
  rewrite (same_window_slot c c' i Hc). destruct Hc as [Hw Ho].
  split; cbn; [rewrite Hw; reflexivity | exact Ho].
Qed.

Lemma same_window_advance c c' k :
  same_window c c' ->
  same_window (set_nlfsr_offset c (add32 (nlfsr_offset c) k))
              (set_nlfsr_offset c' (add32 (nlfsr_offset c') k)).
Proof.
  intros [Hw Ho]. split; cbn; [exact Hw|].
  rewrite !add32_mod32, Ho. reflexivity.
Qed.

Lemma mix_stage_same_window c c' e f :
  same_window c c' ->
  same_window (mix_stage (c, e, f)).1.1 (mix_stage (c', e, f)).1.1 /\
  (mix_stage (c, e, f)).1.2 = (mix_stage (c', e, f)).1.2 /\
  (mix_stage (c, e, f)).2 = (mix_stage (c', e, f)).2.
Proof.
  intros Hc. unfold mix_stage.
  rewrite !(same_window_read c c' _ Hc).
  destruct (DRAGON_UPDATE _) as [a b c0 d e0 f0]. cbn [fst snd].
  split; [|split; reflexivity].
  pose proof (same_window_advance c c' (DRAGON_NLFSR_SIZE - 4) Hc) as Hadv.
  repeat first [ exact Hadv | apply same_window_write
               | apply same_window_read | f_equal ].
Qed.

Lemma mix_stages_same_window (n : nat) c c' e f :
  same_window c c' ->
  same_window (Nat.iter n mix_stage (c, e, f)).1.1
              (Nat.iter n mix_stage (c', e, f)).1.1 /\
  (Nat.iter n mix_stage (c, e, f)).1.2 = (Nat.iter n mix_stage (c', e, f)).1.2 /\
  (Nat.iter n mix_stage (c, e, f)).2 = (Nat.iter n mix_stage (c', e, f)).2.
Proof.
  intros Hc. induction n as [|n IH]; [simpl; auto|].
  rewrite !Nat.iter_succ.
  destruct (Nat.iter n mix_stage (c, e, f)) as [[c1 e1] f1].
  destruct (Nat.iter n mix_stage (c', e, f)) as [[c1' e1'] f1'].
  cbn [fst snd] in IH. destruct IH as (Hc1 & -> & ->).
  apply mix_stage_same_window, Hc1.
Qed.

Lemma mix_stage_frame c e f :
  untouched_by_mixing c (mix_stage (c, e, f)).1.1 /\
  nlfsr_offset (mix_stage (c, e, f)).1.1 = add32 (nlfsr_offset c) 28.
Proof.
  unfold mix_stage. destruct (DRAGON_UPDATE _) as [a b c0 d e0 f0].
  unfold untouched_by_mixing, DRAGON_NLFSR_WORD_set.
  cbn. rewrite !length_insert. auto 10.
Qed.

Lemma mix_stages_frame (n : nat) c e f :
  untouched_by_mixing c (Nat.iter n mix_stage (c, e, f)).1.1 /\
  wrap32 (nlfsr_offset (Nat.iter n mix_stage (c, e, f)).1.1) =
    wrap32 (nlfsr_offset c + 28 * Z.of_nat n).
Proof.
  induction n as [|n IH].
  - simpl. rewrite Z.add_0_r. unfold untouched_by_mixing. auto 10.
  - rewrite !Nat.iter_succ.
    destruct (Nat.iter n mix_stage (c, e, f)) as [[c1 e1] f1].
    cbn [fst snd] in IH. destruct IH as [Hfr Hoff].
    destruct (mix_stage_frame c1 e1 f1) as [Hfr1 Hoff1].
    split.
    + unfold untouched_by_mixing in *. cbn [fst snd].
      destruct Hfr as (? & ? & ? & ? & ?). destruct Hfr1 as (? & ? & ? & ? & ?).
      repeat split; congruence.
    + rewrite Hoff1. unfold add32. rewrite wrap32_idem.
      rewrite <- wrap32_add_l, Hoff, wrap32_add_l. f_equal. lia.
Qed.

Lemma mix_stages_offset (n : nat) c e f :
  nlfsr_offset (Nat.iter (S n) mix_stage (c, e, f)).1.1 =
    wrap32 (nlfsr_offset c + 28 * Z.of_nat (S n)).
Proof.
  rewrite Nat.iter_succ.
  destruct (mix_stages_frame n c e f) as [_ Hoff].
  destruct (Nat.iter n mix_stage (c, e, f)) as [[c1 e1] f1]. cbn [fst snd] in Hoff.
  destruct (mix_stage_frame c1 e1 f1) as [_ ->].
  unfold add32. rewrite <- wrap32_add_l, Hoff, wrap32_add_l. f_equal. lia.
Qed.

(** ** IV setup: what it changes and what it depends on *)

Lemma xor_at_length i v w : length (xor_at i v w) = length w.
Proof. unfold xor_at. apply length_insert. Qed.

Lemma iv_restore_frame c :
  untouched_by_mixing c (iv_restore c) /\
  nlfsr_offset (iv_restore c) = nlfsr_offset c.
Proof.
  unfold iv_restore, untouched_by_mixing.
  destruct (full_rekeying c =? 0); cbn; rewrite ?copy_words_length; auto 10.
Qed.

Lemma fold_left_length (f : list Z -> nat -> list Z) (idxs : list nat) w :
  (forall w i, length (f w i) = length w) ->
  length (fold_left f idxs w) = length w.
Proof.
  intros Hf. revert w. induction idxs as [|i idxs IH]; intros w; simpl; [reflexivity|].
  rewrite IH. apply Hf.
Qed.

Lemma iv128_iv_length iv w i : length (iv128_iv iv w i) = length w.
Proof. unfold iv128_iv. rewrite !xor_at_length, length_insert. reflexivity. Qed.

Lemma iv128_ivswap_length iv w i : length (iv128_ivswap iv w i) = length w.
Proof.
  unfold iv128_ivswap.
  rewrite length_insert, !xor_at_length, length_insert, !xor_at_length. reflexivity.
Qed.

Lemma iv256_iv_length iv w i : length (iv256_iv iv w i) = length w.
Proof. unfold iv256_iv. rewrite length_insert, !xor_at_length. reflexivity. Qed.

Lemma iv_merge_frame c iv :
  untouched_by_mixing c (iv_merge c iv) /\
  nlfsr_offset (iv_merge c iv) = nlfsr_offset c.
Proof.
  unfold iv_merge, untouched_by_mixing.
  destruct (key_size c =? 128); unfold set_nlfsr_word;
    cbn [init_state key_size keystream_buffer buffer_index nlfsr_word nlfsr_offset];
    rewrite ?(fold_left_length _ _ _ (iv128_ivswap_length iv)),
            ?(fold_left_length _ _ _ (iv128_iv_length iv)),
            ?(fold_left_length _ _ _ (iv256_iv_length iv)); auto 10.
Qed.

Lemma untouched_trans c1 c2 c3 :
  untouched_by_mixing c1 c2 -> untouched_by_mixing c2 c3 -> untouched_by_mixing c1 c3.
Proof.
  unfold untouched_by_mixing.
  intros (? & ? & ? & ? & ?) (? & ? & ? & ? & ?). repeat split; congruence.
Qed.

(** IV setup leaves the snapshot, the key size and the staging buffer with
    its cursor alone, clears [full_rekeying], and moves the offset on by
    16 * (32 - 4) = 448 in [u32]. *)
Lemma ivsetup_body_frame c iv :
  untouched_by_mixing c (ivsetup_body c iv) /\
  nlfsr_offset (ivsetup_body c iv) = wrap32 (nlfsr_offset c + 448) /\
  full_rekeying (ivsetup_body c iv) = 0.
Proof.
  unfold ivsetup_body.
  pose proof (mix_stages_frame DRAGON_MIXING_STAGES
                (iv_merge (iv_restore c) iv) 17522 1634168686) as [Hfr _].
  pose proof (mix_stages_offset 15 (iv_merge (iv_restore c) iv) 17522 1634168686)
    as Hoff.
  change (S 15) with DRAGON_MIXING_STAGES in Hoff.
  destruct (Nat.iter DRAGON_MIXING_STAGES mix_stage _) as [[c1 e1] f1].
  cbn [fst snd] in Hfr, Hoff.
  destruct (iv_merge_frame (iv_restore c) iv) as [Hm Hmo].
  destruct (iv_restore_frame c) as [Hr Hro].
  split; [|split].
  - apply (untouched_trans _ _ _ Hr). apply (untouched_trans _ _ _ Hm).
    unfold untouched_by_mixing in *. cbn. exact Hfr.
  - cbn. rewrite Hoff, Hmo, Hro. reflexivity.
  - reflexivity.
Qed.

(** The NLFSR and the counters IV setup produces are a function of the
    words the mixing starts from and of the offset modulo 32 ... *)
Lemma ivsetup_body_depends_merged c c' iv :
  nlfsr_word (iv_merge (iv_restore c) iv) = nlfsr_word (iv_merge (iv_restore c') iv) ->
  nlfsr_offset c mod 32 = nlfsr_offset c' mod 32 ->
  nlfsr_word (ivsetup_body c iv) = nlfsr_word (ivsetup_body c' iv) /\
  state_counter0 (ivsetup_body c iv) = state_counter0 (ivsetup_body c' iv) /\
  state_counter1 (ivsetup_body c iv) = state_counter1 (ivsetup_body c' iv).
Proof.
  intros Hw Ho.
  assert (same_window (iv_merge (iv_restore c) iv) (iv_merge (iv_restore c') iv))
    as Hwin.
  { split; [exact Hw|].
    destruct (iv_merge_frame (iv_restore c) iv) as [_ ->].
    destruct (iv_merge_frame (iv_restore c') iv) as [_ ->].
    destruct (iv_restore_frame c) as [_ ->].
    destruct (iv_restore_frame c') as [_ ->]. exact Ho. }
  unfold ivsetup_body.
  pose proof (mix_stages_same_window DRAGON_MIXING_STAGES
                (iv_merge (iv_restore c) iv) (iv_merge (iv_restore c') iv)
                17522 1634168686 Hwin) as Hmix.
  revert Hmix.
  generalize (Nat.iter DRAGON_MIXING_STAGES mix_stage
                (iv_merge (iv_restore c) iv, 17522, 1634168686)).
  generalize (Nat.iter DRAGON_MIXING_STAGES mix_stage
                (iv_merge (iv_restore c') iv, 17522, 1634168686)).
  intros [[c1' e1'] f1'] [[c1 e1] f1] ([Hws _] & He & Hf).
  cbn [fst snd] in Hws, He, Hf.
  unfold set_full_rekeying, set_state_counter1, set_state_counter0.
  cbn [nlfsr_word state_counter0 state_counter1]. auto.
Qed.

(** ... hence of the words before the merge, the key size, the IV and the
    offset modulo 32. *)
Lemma ivsetup_body_depends c c' iv :
  nlfsr_word (iv_restore c) = nlfsr_word (iv_restore c') ->
  key_size c = key_size c' ->
  nlfsr_offset c mod 32 = nlfsr_offset c' mod 32 ->
  nlfsr_word (ivsetup_body c iv) = nlfsr_word (ivsetup_body c' iv) /\
  state_counter0 (ivsetup_body c iv) = state_counter0 (ivsetup_body c' iv) /\
  state_counter1 (ivsetup_body c iv) = state_counter1 (ivsetup_body c' iv).
Proof.
  intros Hw Hk Ho. apply ivsetup_body_depends_merged; [|exact Ho].
  destruct (iv_restore_frame c) as [(_ & Hkr & _) _].
  destruct (iv_restore_frame c') as [(_ & Hkr' & _) _].
  unfold iv_merge. rewrite Hkr, Hkr', Hk, Hw.
  destruct (key_size c' =? 128); unfold set_nlfsr_word;
    cbn [nlfsr_word]; reflexivity.
Qed.

(** ** Block calls: what they change and what they depend on *)

Lemma blocks_loop_ret RND (fuel : nat) blocks s s' :
  blocks_loop RND fuel blocks s = Ret s' -> exists k, s' = sweeps RND k s.
Proof.
  revert blocks s. induction fuel as [|fuel IH]; intros blocks s; cbn [blocks_loop].
  - destruct (blocks >? 0); [discriminate|].
    intros [= <-]. exists 0%nat. reflexivity.
  - destruct (blocks >? 0).
    + intros Hl. destruct (IH _ _ Hl) as [k ->].
      exists (S k). rewrite sweeps_S. reflexivity.
    + intros [= <-]. exists 0%nat. reflexivity.
Qed.

Lemma keystream_blocks_ret (fuel : nat) c blocks c' ws :
  ECRYPT_keystream_blocks fuel (Some c) Buf blocks = Ret (c', ws) ->
  exists k, c' = counters_fold_back c (sweeps KEYSTREAM_RND k (rnd_start c [])) /\
            ws = rout (sweeps KEYSTREAM_RND k (rnd_start c [])).
Proof.
  unfold ECRYPT_keystream_blocks.
  destruct (blocks_loop _ _ _ _) as [s| |] eqn:Hl; try discriminate.
  intros [= <- <-]. destruct (blocks_loop_ret _ _ _ _ _ Hl) as [k ->].
  exists k. split; reflexivity.
Qed.

Lemma process_blocks_ret (fuel : nat) action c input blocks c' ws :
  ECRYPT_process_blocks fuel action (Some c) (Some input) Buf blocks = Ret (c', ws) ->
  exists k, c' = counters_fold_back c (sweeps PROCESS_RND k (rnd_start c input)) /\
            ws = rout (sweeps PROCESS_RND k (rnd_start c input)).
Proof.
  unfold ECRYPT_process_blocks.
  destruct (blocks_loop _ _ _ _) as [s| |] eqn:Hl; try discriminate.
  intros [= <- <-]. destruct (blocks_loop_ret _ _ _ _ _ Hl) as [k ->].
  exists k. split; reflexivity.
Qed.

Lemma untouched_by_rounds_refl c : untouched_by_rounds c c.
Proof. unfold untouched_by_rounds. auto 10. Qed.

Lemma untouched_by_rounds_trans c1 c2 c3 :
  untouched_by_rounds c1 c2 -> untouched_by_rounds c2 c3 -> untouched_by_rounds c1 c3.
Proof.
  unfold untouched_by_rounds.
  intros (? & ? & ? & ? & ?) (? & ? & ? & ? & ?). repeat split; congruence.
Qed.

Lemma counters_fold_back_frame c s :
  length (rw s) = length (nlfsr_word c) ->
  untouched_by_rounds c (counters_fold_back c s) /\
  buffer_index (counters_fold_back c s) = buffer_index c /\
  keystream_buffer (counters_fold_back c s) = keystream_buffer c.
Proof.
  intros Hlen. unfold counters_fold_back, untouched_by_rounds.
  destruct (_ <? _); ctx_fields; rewrite Hlen; auto 10.
Qed.

Lemma sweeps_start_length RND k c input :
  round_macro RND ->
  length (rw (sweeps RND k (rnd_start c input))) = length (nlfsr_word c).
Proof. intros HR. apply (sweeps_rw_length RND k (rnd_start c input) HR). Qed.

Lemma same_core_start c c' input : same_core c c' -> rnd_start c input = rnd_start c' input.
Proof. intros (Hw & Hc0 & Hc1). unfold rnd_start. rewrite Hw, Hc0, Hc1. reflexivity. Qed.

Lemma same_core_fold_back c c' s :
  same_core c c' -> same_core (counters_fold_back c s) (counters_fold_back c' s).
Proof.
  intros (Hw & Hc0 & Hc1). unfold counters_fold_back, same_core.
  cbn [state_counter1 set_nlfsr_word]. rewrite Hc1.
  destruct (_ <? _); cbn; auto.
Qed.

Lemma keystream_blocks_same_core (fuel : nat) c c' blocks :
  same_core c c' ->
  same_outcome (ECRYPT_keystream_blocks fuel (Some c) Buf blocks)
               (ECRYPT_keystream_blocks fuel (Some c') Buf blocks).
Proof.
  intros Hc. unfold ECRYPT_keystream_blocks.
  rewrite (same_core_start c c' [] Hc).
  destruct (blocks_loop _ _ _ _) as [s| |]; cbn; auto.
  split; [apply same_core_fold_back, Hc | reflexivity].
Qed.

Lemma process_blocks_same_core (fuel : nat) action action' c c' input blocks :
  same_core c c' ->
  same_outcome
    (ECRYPT_process_blocks fuel action (Some c) (Some input) Buf blocks)
    (ECRYPT_process_blocks fuel action' (Some c') (Some input) Buf blocks).
Proof.
  intros Hc. unfold ECRYPT_process_blocks.
  rewrite (same_core_start c c' input Hc).
  destruct (blocks_loop _ _ _ _) as [s| |]; cbn; auto.
  split; [apply same_core_fold_back, Hc | reflexivity].
Qed.

(** ** The byte-stream adapter *)

Lemma refill_call (fuel : nat) c :
  (1 <= fuel)%nat ->
  ECRYPT_keystream_blocks fuel (Some c) Buf DRAGON_BUFFER_SIZE =
    Ret (counters_fold_back c (sweeps KEYSTREAM_RND 1 (rnd_start c [])),
         rout (sweeps KEYSTREAM_RND 1 (rnd_start c []))).
Proof.
  intros Hf. apply (keystream_blocks_returns fuel c 1); [reflexivity | exact Hf].
Qed.

Lemma refill_frame c :
  untouched_by_rounds c (refill c) /\ buffer_index (refill c) = buffer_index c.
Proof.
  unfold refill. cbv zeta.
  pose proof (counters_fold_back_frame c (sweeps KEYSTREAM_RND 1 (rnd_start c []))
                (sweeps_start_length _ 1 c [] macro_keystream)) as Hfr.
  revert Hfr.
  generalize (words_to_bytes (rout (sweeps KEYSTREAM_RND 1 (rnd_start c [])))).
  generalize (counters_fold_back c (sweeps KEYSTREAM_RND 1 (rnd_start c []))).
  intros c1 b (Hfr & Hbi & _).
  unfold untouched_by_rounds in *. ctx_fields. auto.
Qed.

Lemma serve_byte_frame c :
  untouched_by_rounds c (serve_byte c) /\ buffer_index (serve_byte c) = 0.
Proof.
  unfold serve_byte. destruct (refill_frame c) as [Hfr _]. revert Hfr.
  generalize (refill c). intros c1 Hfr.
  unfold untouched_by_rounds in *. ctx_fields. auto.
Qed.

Lemma serve_byte_counter c :
  state_counter1 (serve_byte c) = wrap32 (state_counter1 c + 16).
Proof.
  unfold serve_byte, refill. cbv zeta.
  destruct (counters_fold_back_spec KEYSTREAM_RND c [] 1 macro_keystream
              ltac:(lia)) as [Hlo _].
  revert Hlo.
  generalize (words_to_bytes (rout (sweeps KEYSTREAM_RND 1 (rnd_start c [])))).
  generalize (counters_fold_back c (sweeps KEYSTREAM_RND 1 (rnd_start c []))).
  intros c1 b Hlo. ctx_fields. exact Hlo.
Qed.

(** A byte request at cursor 0: refill, deliver byte 0, cursor 0 again. *)
Lemma keystream_bytes_loop_at_0 (fuel n : nat) c out :
  buffer_index c = 0 -> (1 <= fuel)%nat ->
  keystream_bytes_loop fuel (S n) c out =
    keystream_bytes_loop fuel n (serve_byte c)
      (out ++ [nth 0 (keystream_buffer (refill c)) 0]).
Proof.
  intros Hb Hf. cbn [keystream_bytes_loop].
  rewrite Hb, (refill_call fuel c Hf).
  cbn [Z.eqb mbind result_bind mret result_ret].
  destruct (refill_frame c) as [_ Hbi]. rewrite Hb in Hbi. revert Hbi.
  unfold serve_byte, refill. cbv zeta.
  generalize (words_to_bytes (rout (sweeps KEYSTREAM_RND 1 (rnd_start c [])))).
  generalize (counters_fold_back c (sweeps KEYSTREAM_RND 1 (rnd_start c []))).
  intros c1 b Hbi. rewrite Hbi.
  reflexivity.
Qed.

(** A byte request at any other cursor: no refill, the byte under the
    cursor, and the cursor taken modulo the buffer size, with nothing
    added. *)
Lemma keystream_bytes_loop_off_0 (fuel n : nat) c out :
  buffer_index c <> 0 ->
  keystream_bytes_loop fuel (S n) c out =
    keystream_bytes_loop fuel n
      (set_buffer_index c (buffer_index c mod DRAGON_BUFFER_SIZE))
      (out ++ [nth (Z.to_nat (buffer_index c)) (keystream_buffer c) 0]).
Proof.
  intros Hb. cbn [keystream_bytes_loop].
  destruct (Z.eqb_spec (buffer_index c) 0) as [E|_]; [contradiction|].
  reflexivity.
Qed.

Lemma keystream_bytes_loop_total (fuel n : nat) c out :
  buffer_index c = 0 -> (1 <= fuel)%nat ->
  keystream_bytes_loop fuel n c out = Ret (after_bytes n c, out ++ served n c).
Proof.
  intros Hb Hf. revert c out Hb. induction n as [|n IH]; intros c out Hb.
  - simpl. rewrite app_nil_r. reflexivity.
  - rewrite (keystream_bytes_loop_at_0 fuel n c out Hb Hf).
    rewrite IH by exact (proj2 (serve_byte_frame c)).
    cbn [after_bytes served]. rewrite <- app_assoc. reflexivity.
Qed.

Lemma served_length n c : length (served n c) = n.
Proof. revert c. induction n as [|n IH]; intros c; simpl; [|rewrite IH]; reflexivity. Qed.

Lemma after_bytes_frame n c :
  buffer_index c = 0 ->
  untouched_by_rounds c (after_bytes n c) /\ buffer_index (after_bytes n c) = 0.
Proof.
  revert c. induction n as [|n IH]; intros c Hb.
  - split; [apply untouched_by_rounds_refl | exact Hb].
  - cbn [after_bytes]. destruct (serve_byte_frame c) as [Hfr Hb'].
    destruct (IH _ Hb') as [Hfr' Hb''].
    split; [exact (untouched_by_rounds_trans _ _ _ Hfr Hfr') | exact Hb''].
Qed.

Lemma after_bytes_counter n c :
  wrap32 (state_counter1 (after_bytes n c)) =
    wrap32 (state_counter1 c + 16 * Z.of_nat n).
Proof.
  revert c. induction n as [|n IH]; intros c.
  - simpl. rewrite Z.add_0_r. reflexivity.
  - cbn [after_bytes]. rewrite IH, serve_byte_counter, wrap32_add_l.
    f_equal. lia.
Qed.

Lemma after_bytes_counter_pos n c :
  (0 < n)%nat ->
  state_counter1 (after_bytes n c) = wrap32 (state_counter1 c + 16 * Z.of_nat n).
Proof.
  intros Hn. rewrite <- after_bytes_counter.
  destruct n as [|n]; [lia|]. clear Hn. revert c.
  induction n as [|n IH]; intros c.
  - cbn [after_bytes]. rewrite serve_byte_counter, wrap32_idem. reflexivity.
  - change (after_bytes (S (S n)) c) with (after_bytes (S n) (serve_byte c)).
    apply IH.
Qed.

(** Any run of the byte loop, from any cursor. *)
Lemma keystream_bytes_loop_frame (fuel n : nat) c out c' out' :
  keystream_bytes_loop fuel n c out = Ret (c', out') ->
  untouched_by_rounds c c' /\ (buffer_index c = 0 -> buffer_index c' = 0).
Proof.
  revert c out. induction n as [|n IH]; intros c out.
  - intros [= <- <-]. split; [apply untouched_by_rounds_refl | auto].
  - cbn [keystream_bytes_loop].
    destruct (Z.eqb_spec (buffer_index c) 0) as [Hb|Hb].
    + destruct (ECRYPT_keystream_blocks fuel (Some c) Buf DRAGON_BUFFER_SIZE)
        as [[c1 ws]| |] eqn:Hcall; cbn [mbind result_bind mret result_ret];
        try discriminate.
      intros Hl. apply IH in Hl. destruct Hl as [Hfr Hbi].
      destruct (keystream_blocks_ret _ _ _ _ _ Hcall) as (k & -> & _).
      destruct (counters_fold_back_frame c _
                  (sweeps_start_length _ k c [] macro_keystream))
        as (Hfr1 & Hb1 & _).
      revert Hfr Hbi Hfr1 Hb1.
      generalize (words_to_bytes (rout (sweeps KEYSTREAM_RND k (rnd_start c [])))).
      generalize (counters_fold_back c (sweeps KEYSTREAM_RND k (rnd_start c []))).
      intros c1 b Hfr Hbi Hfr1 Hb1.
      split.
      * refine (untouched_by_rounds_trans _ _ _ _ Hfr).
        unfold untouched_by_rounds in *. ctx_fields. exact Hfr1.
      * intros _. apply Hbi. ctx_fields. rewrite Hb1, Hb. reflexivity.
    + cbn [mbind result_bind]. intros Hl. apply IH in Hl. destruct Hl as [Hfr _].
      split; [|contradiction].
      refine (untouched_by_rounds_trans _ _ _ _ Hfr).
      unfold untouched_by_rounds. ctx_fields. auto 10.
Qed.

(** ** Sessions: what holds at every call boundary under one key *)

Lemma Ret_inj {A : Type} (a b : A) : Ret a = Ret b -> a = b.
Proof. intros [= ->]. reflexivity. Qed.

Lemma fmap_fst_ret (r : result (ECRYPT_ctx * list Z)) c' :
  fst <$> r = Ret c' -> exists out, r = Ret (c', out).
Proof.
  destruct r as [[c1 out]| |]; cbn [fmap result_fmap]; try discriminate.
  intros [= <-]. exists out. reflexivity.
Qed.

Lemma keystream_bytes_frame (fuel : nat) c len c' out :
  ECRYPT_keystream_bytes fuel (Some c) Buf len = Ret (c', out) ->
  untouched_by_rounds c c' /\ (buffer_index c = 0 -> buffer_index c' = 0).
Proof. unfold ECRYPT_keystream_bytes. apply keystream_bytes_loop_frame. Qed.

Lemma process_bytes_frame (fuel : nat) action c input msglen c' out :
  ECRYPT_process_bytes fuel action (Some c) (Some input) Buf msglen = Ret (c', out) ->
  untouched_by_rounds c c' /\ (buffer_index c = 0 -> buffer_index c' = 0).
Proof.
  unfold ECRYPT_process_bytes.
  destruct (ECRYPT_keystream_bytes fuel (Some c) Buf msglen) as [[c1 o]| |] eqn:Hk;
    cbn [mbind result_bind mret result_ret]; try discriminate.
  intros [= <- _]. exact (keystream_bytes_frame _ _ _ _ _ Hk).
Qed.

Lemma keystream_blocks_frame (fuel : nat) c blocks c' out :
  ECRYPT_keystream_blocks fuel (Some c) Buf blocks = Ret (c', out) ->
  untouched_by_rounds c c' /\ buffer_index c' = buffer_index c.
Proof.
  intros Hc. destruct (keystream_blocks_ret _ _ _ _ _ Hc) as (k & -> & _).
  destruct (counters_fold_back_frame c _ (sweeps_start_length _ k c [] macro_keystream))
    as (Hfr & Hb & _).
  auto.
Qed.

Lemma process_blocks_frame (fuel : nat) action c input blocks c' out :
  ECRYPT_process_blocks fuel action (Some c) (Some input) Buf blocks = Ret (c', out) ->
  untouched_by_rounds c c' /\ buffer_index c' = buffer_index c.
Proof.
  intros Hc. destruct (process_blocks_ret _ _ _ _ _ _ _ Hc) as (k & -> & _).
  destruct (counters_fold_back_frame c _
              (sweeps_start_length _ k c input macro_process)) as (Hfr & Hb & _).
  auto.
Qed.

Lemma run_call_rounds (fuel : nat) c call c' :
  is_ivsetup call = false -> run_call fuel c call = Ret c' ->
  untouched_by_rounds c c' /\ (buffer_index c = 0 -> buffer_index c' = 0).
Proof.
  destruct call as [iv|blocks|action input blocks|len|action input msglen];
    cbn [is_ivsetup run_call]; intros Hiv Hrun; try discriminate Hiv;
    apply fmap_fst_ret in Hrun; destruct Hrun as [out Hrun].
  - destruct (keystream_blocks_frame _ _ _ _ _ Hrun) as [Hfr Hb].
    split; [exact Hfr | congruence].
  - destruct (process_blocks_frame _ _ _ _ _ _ _ Hrun) as [Hfr Hb].
    split; [exact Hfr | congruence].
  - exact (keystream_bytes_frame _ _ _ _ _ Hrun).
  - exact (process_bytes_frame _ _ _ _ _ _ _ Hrun).
Qed.

Lemma wrap32_448_mod32 x : wrap32 (x + 448) mod 32 = x mod 32.
Proof.
  rewrite wrap32_mod32. replace (x + 448) with (x + 14 * 32) by lia.
  apply Z.mod_add. lia.
Qed.

Lemma ivsetup_body_keyed K ks n c iv :
  keyed K ks n c ->
  keyed K ks n (ivsetup_body c iv) /\ full_rekeying (ivsetup_body c iv) = 0.
Proof.
  intros (HK & Hks & Hn & Ho & Hb).
  destruct (ivsetup_body_frame c iv) as ((HK' & Hks' & _ & Hb' & Hn') & Ho' & Hfr').
  split; [|exact Hfr'].
  unfold keyed. rewrite HK', Hks', Hn', Hb', Ho', wrap32_448_mod32. auto 10.
Qed.

Lemma run_call_keyed (fuel : nat) K ks n c call c' :
  keyed K ks n c -> run_call fuel c call = Ret c' ->
  keyed K ks n c' /\ (full_rekeying c = 0 -> full_rekeying c' = 0).
Proof.
  intros Hkeyed Hrun.
  destruct (is_ivsetup call) eqn:Hiv.
  - destruct call; try discriminate Hiv. cbn [run_call ECRYPT_ivsetup] in Hrun.
    apply Ret_inj in Hrun. subst c'.
    destruct (ivsetup_body_keyed K ks n c iv Hkeyed) as [Hk Hfr]. auto.
  - destruct (run_call_rounds fuel c call c' Hiv Hrun)
      as ((HK' & Hks' & Ho' & Hfr' & Hn') & Hb').
    destruct Hkeyed as (HK & Hks & Hn & Ho & Hb).
    split; [|congruence].
    unfold keyed. rewrite HK', Hks', Hn', Ho'. auto 10.
Qed.

Lemma run_calls_keyed (fuel : nat) K ks n calls c c' :
  keyed K ks n c -> run_calls fuel c calls = Ret c' ->
  keyed K ks n c' /\ (full_rekeying c = 0 -> full_rekeying c' = 0).
Proof.
  revert c. induction calls as [|call calls IH]; intros c Hkeyed; cbn [run_calls].
  - intros [= <-]. auto.
  - destruct (run_call fuel c call) as [c1| |] eqn:Hcall;
      cbn [mbind result_bind]; try discriminate.
    intros Hrest.
    destruct (run_call_keyed _ _ _ _ _ _ _ Hkeyed Hcall) as [Hk1 Hfr1].
    destruct (IH _ Hk1 Hrest) as [Hk' Hfr']. auto.
Qed.

(** In a session the offset is a [u32] value. *)
Lemma run_call_offset_range (fuel : nat) c call c' :
  0 <= nlfsr_offset c < 2 ^ 32 -> run_call fuel c call = Ret c' ->
  0 <= nlfsr_offset c' < 2 ^ 32.
Proof.
  intros Hr Hrun. destruct (is_ivsetup call) eqn:Hiv.
  - destruct call; try discriminate Hiv. cbn [run_call ECRYPT_ivsetup] in Hrun.
    apply Ret_inj in Hrun. subst c'.
    rewrite (proj1 (proj2 (ivsetup_body_frame c iv))). apply wrap32_range.
  - destruct (run_call_rounds fuel c call c' Hiv Hrun) as ((_ & _ & -> & _) & _).
    exact Hr.
Qed.

Lemma run_calls_offset_range (fuel : nat) calls c c' :
  0 <= nlfsr_offset c < 2 ^ 32 -> run_calls fuel c calls = Ret c' ->
  0 <= nlfsr_offset c' < 2 ^ 32.
Proof.
  revert c. induction calls as [|call calls IH]; intros c Hr; cbn [run_calls].
  - intros Hc. apply Ret_inj in Hc. subst c'. exact Hr.
  - destruct (run_call fuel c call) as [c1| |] eqn:Hcall;
      cbn [mbind result_bind]; try discriminate.
    intros Hrest. apply (IH c1); [|exact Hrest].
    exact (run_call_offset_range _ _ _ _ Hr Hcall).
Qed.

Lemma key128_k_length key w i : length (key128_k key w i) = length w.
Proof. unfold key128_k. rewrite !length_insert. reflexivity. Qed.

Lemma key128_kswap_length key w i : length (key128_kswap key w i) = length w.
Proof. unfold key128_kswap. rewrite !length_insert. reflexivity. Qed.

Lemma key256_k_length key w i : length (key256_k key w i) = length w.
Proof. unfold key256_k. rewrite !length_insert. reflexivity. Qed.

Lemma keysetup_body_keyed c key keysize ivsize :
  keyed (init_state (keysetup_body c key keysize ivsize)) keysize
        (length (nlfsr_word c)) (keysetup_body c key keysize ivsize) /\
  nlfsr_offset (keysetup_body c key keysize ivsize) = 0 /\
  full_rekeying (keysetup_body c key keysize ivsize) = 1.
Proof.
  unfold keyed, keysetup_body.
  destruct (keysize =? 128); ctx_fields;
    rewrite ?(fold_left_length _ _ _ (key128_kswap_length key)),
            ?(fold_left_length _ _ _ (key128_k_length key)),
            ?(fold_left_length _ _ _ (key256_k_length key));
    auto 10.
Qed.

Lemma keysetup_ret ctx0 key keysize ivsize ctxk :
  ECRYPT_keysetup (Some ctx0) (Some key) keysize ivsize = Ret ctxk ->
  ctxk = keysetup_body ctx0 key keysize ivsize.
Proof. unfold ECRYPT_keysetup. intros Hk. apply Ret_inj in Hk. congruence. Qed.

Lemma session_keyed (fuel : nat) ctx0 key keysize ivsize calls ctxk ctx :
  ECRYPT_keysetup (Some ctx0) (Some key) keysize ivsize = Ret ctxk ->
  run_calls fuel ctxk calls = Ret ctx ->
  keyed (init_state ctxk) keysize (length (nlfsr_word ctx0)) ctxk /\
  keyed (init_state ctxk) keysize (length (nlfsr_word ctx0)) ctx.
Proof.
  intros Hk Hrun. apply keysetup_ret in Hk. subst ctxk.
  destruct (keysetup_body_keyed ctx0 key keysize ivsize) as (Hkeyed & _ & _).
  split; [exact Hkeyed|].
  exact (proj1 (run_calls_keyed _ _ _ _ _ _ _ Hkeyed Hrun)).
Qed.

(** ** The cursor of the staging buffer *)

(** C9: in any session the cursor of the staging buffer is 0 at every call
    boundary.  At cursor 0 a byte request refills the buffer by a 16-block
    call of the round function, delivers byte 0 and leaves the cursor at 0,
    so every request of [ECRYPT_keystream_bytes] costs a refill (the low
    counter advances by 16 per byte); the cursor update itself is
    [cursor mod DRAGON_BUFFER_SIZE], with nothing added. *)
Theorem cursor_never_advances
    (fuel : nat) (ctx0 : ECRYPT_ctx) (key : list Z) (keysize ivsize : Z)
    (calls : list api_call) (ctxk ctx : ECRYPT_ctx) :
  ECRYPT_keysetup (Some ctx0) (Some key) keysize ivsize = Ret ctxk ->
  run_calls fuel ctxk calls = Ret ctx ->
  (1 <= fuel)%nat ->
  buffer_index ctxk = 0 /\ buffer_index ctx = 0 /\
  (exists c1 ws,
      ECRYPT_keystream_blocks fuel (Some ctx) Buf DRAGON_BUFFER_SIZE = Ret (c1, ws) /\
      refill ctx = set_keystream_buffer c1 (words_to_bytes ws)) /\
  (forall n out,
      keystream_bytes_loop fuel (S n) ctx out =
        keystream_bytes_loop fuel n (serve_byte ctx)
          (out ++ [nth 0 (keystream_buffer (refill ctx)) 0])) /\
  buffer_index (serve_byte ctx) = 0 /\
  state_counter1 (serve_byte ctx) = wrap32 (state_counter1 ctx + 16) /\
  (forall len, 0 <= len ->
      exists c' bytes,
        ECRYPT_keystream_bytes fuel (Some ctx) Buf len = Ret (c', bytes) /\
        buffer_index c' = 0 /\ length bytes = Z.to_nat len /\
        wrap32 (state_counter1 c') = wrap32 (state_counter1 ctx + 16 * len)) /\
  (forall c n out,
      buffer_index c <> 0 ->
      keystream_bytes_loop fuel (S n) c out =
        keystream_bytes_loop fuel n
          (set_buffer_index c (buffer_index c mod DRAGON_BUFFER_SIZE))
          (out ++ [nth (Z.to_nat (buffer_index c)) (keystream_buffer c) 0])).
Proof.
  intros Hk Hrun Hf.
  destruct (session_keyed _ _ _ _ _ _ _ _ Hk Hrun)
    as ((_ & _ & _ & _ & Hbk) & (_ & _ & _ & _ & Hb)).
  split; [exact Hbk|]. split; [exact Hb|]. split; [|split; [|split; [|split; [|split]]]].
  - eexists _, _. split; [apply (refill_call fuel ctx Hf) | reflexivity].
  - intros n out. apply keystream_bytes_loop_at_0; assumption.
  - exact (proj2 (serve_byte_frame ctx)).
  - apply serve_byte_counter.
  - intros len Hlen. unfold ECRYPT_keystream_bytes.
    rewrite (keystream_bytes_loop_total fuel (Z.to_nat len) ctx [] Hb Hf).
    eexists _, _. split; [reflexivity|].
    split; [exact (proj2 (after_bytes_frame _ ctx Hb))|].
    split; [apply served_length|].
    rewrite after_bytes_counter, Z2Nat.id by exact Hlen. reflexivity.
  - intros c n out Hc. apply keystream_bytes_loop_off_0, Hc.
Qed.

(** ** The NLFSR offset *)

Lemma logical_is_physical (c : ECRYPT_ctx) :
  nlfsr_offset c mod 32 = 0 <->
  (forall i, 0 <= i < 32 -> DRAGON_OFFSET c i (DRAGON_NLFSR_SIZE - 1) = i).
Proof.
  split.
  - intros Ho i Hi. rewrite DRAGON_OFFSET_mod.
    rewrite <- Zplus_mod_idemp_l, Ho. apply Z.mod_small. lia.
  - intros Hall. specialize (Hall 0 ltac:(lia)).
    rewrite DRAGON_OFFSET_mod, Z.add_0_r in Hall. exact Hall.
Qed.

(** C10: key setup sets the offset to 0; in any session the offset is a
    multiple of 32 at every call boundary; an IV setup moves it on by 448
    (in [u32]: exactly 448 unless the sum passes 2^32, which leaves it a
    multiple of 32 all the same); no other call changes it; and the offset being a multiple of
    32 is exactly the condition under which the logical word [i] of the
    offset macro is the physical slot [i] that the round function and the
    snapshot restore index directly. *)
Theorem nlfsr_offset_multiple_of_32
    (fuel : nat) (ctx0 : ECRYPT_ctx) (key : list Z) (keysize ivsize : Z)
    (calls : list api_call) (ctxk ctx : ECRYPT_ctx) :
  ECRYPT_keysetup (Some ctx0) (Some key) keysize ivsize = Ret ctxk ->
  run_calls fuel ctxk calls = Ret ctx ->
  nlfsr_offset ctxk = 0 /\
  nlfsr_offset ctx mod 32 = 0 /\
  0 <= nlfsr_offset ctx < 2 ^ 32 /\
  (forall iv, exists c',
      ECRYPT_ivsetup (Some ctx) (Some iv) = Ret c' /\
      nlfsr_offset c' = wrap32 (nlfsr_offset ctx + 448) /\
      (nlfsr_offset ctx + 448 < 2 ^ 32 ->
       nlfsr_offset c' = nlfsr_offset ctx + 448)) /\
  (forall call c',
      is_ivsetup call = false -> run_call fuel ctx call = Ret c' ->
      nlfsr_offset c' = nlfsr_offset ctx) /\
  (forall i, 0 <= i < 32 -> DRAGON_OFFSET ctx i (DRAGON_NLFSR_SIZE - 1) = i) /\
  (forall c : ECRYPT_ctx,
      nlfsr_offset c mod 32 = 0 <->
      (forall i, 0 <= i < 32 -> DRAGON_OFFSET c i (DRAGON_NLFSR_SIZE - 1) = i)).
Proof.
  intros Hk Hrun.
  destruct (session_keyed _ _ _ _ _ _ _ _ Hk Hrun) as (_ & (_ & _ & _ & Ho & _)).
  apply keysetup_ret in Hk.
  assert (nlfsr_offset ctxk = 0) as Hok
    by (subst ctxk;
        exact (proj1 (proj2 (keysetup_body_keyed ctx0 key keysize ivsize)))).
  assert (0 <= nlfsr_offset ctx < 2 ^ 32) as Hrange
    by (apply (run_calls_offset_range fuel calls ctxk ctx); [rewrite Hok; lia|];
        exact Hrun).
  split; [exact Hok|]. split; [exact Ho|]. split; [exact Hrange|].
  split; [|split; [|split]].
  - intros iv. exists (ivsetup_body ctx iv). split; [reflexivity|].
    pose proof (proj1 (proj2 (ivsetup_body_frame ctx iv))) as Hadv.
    split; [exact Hadv|].
    intros Hlt. rewrite Hadv. apply wrap32_small. lia.
  - intros call c' Hiv Hcall.
    destruct (run_call_rounds _ _ _ _ Hiv Hcall) as ((_ & _ & Hoff & _) & _).
    exact Hoff.
  - apply logical_is_physical, Ho.
  - apply logical_is_physical.
Qed.

(** ** Determinism: the keystream is a function of key and IV *)

Lemma iv_restore_fresh c : full_rekeying c = 1 -> iv_restore c = c.
Proof. intros Hfr. unfold iv_restore. rewrite Hfr. reflexivity. Qed.

(** After the merge of the IV no NLFSR word is left from before key setup:
    the slots key setup does not write are all overwritten by the merge. *)
Lemma merge_overwrites_stale_words ctx0 ctx0' key keysize ivsize iv :
  length (nlfsr_word ctx0) = 32%nat -> length (nlfsr_word ctx0') = 32%nat ->
  nlfsr_word (iv_merge (keysetup_body ctx0 key keysize ivsize) iv) =
  nlfsr_word (iv_merge (keysetup_body ctx0' key keysize ivsize) iv).
Proof.
  intros Hw Hw'.
  destruct ctx0 as [w c0 c1 ini ks off buf bi fr].
  destruct ctx0' as [w' c0' c1' ini' ks' off' buf' bi' fr'].
  cbn [nlfsr_word] in Hw, Hw'. explode32 w Hw. explode32 w' Hw'.
  unfold iv_merge, keysetup_body.
  destruct (keysize =? 128) eqn:E; ctx_fields; rewrite E;
    unfold set_nlfsr_word; cbn [nlfsr_word];
    cbn [fold_left seq key128_k key128_kswap key256_k iv128_iv iv128_ivswap
         iv256_iv xor_at insert list_insert nth Nat.add Nat.mul];
    reflexivity.
Qed.

Lemma keysetup_ivsetup_same_core ctx0 ctx0' key keysize ivsize iv :
  length (nlfsr_word ctx0) = 32%nat -> length (nlfsr_word ctx0') = 32%nat ->
  same_core (ivsetup_body (keysetup_body ctx0 key keysize ivsize) iv)
            (ivsetup_body (keysetup_body ctx0' key keysize ivsize) iv).
Proof.
  intros Hw Hw'.
  destruct (keysetup_body_keyed ctx0 key keysize ivsize) as (_ & Ho & Hfr).
  destruct (keysetup_body_keyed ctx0' key keysize ivsize) as (_ & Ho' & Hfr').
  apply ivsetup_body_depends_merged.
  - rewrite (iv_restore_fresh _ Hfr), (iv_restore_fresh _ Hfr').
    apply merge_overwrites_stale_words; assumption.
  - rewrite Ho, Ho'. reflexivity.
Qed.

Lemma serve_byte_same_core c c' :
  same_core c c' ->
  same_core (serve_byte c) (serve_byte c') /\
  nth 0 (keystream_buffer (refill c)) 0 = nth 0 (keystream_buffer (refill c')) 0.
Proof.
  intros Hc. unfold serve_byte, refill. cbv zeta.
  rewrite (same_core_start c c' [] Hc).
  pose proof (same_core_fold_back c c'
                (sweeps KEYSTREAM_RND 1 (rnd_start c' [])) Hc) as Hfb.
  revert Hfb.
  generalize (words_to_bytes (rout (sweeps KEYSTREAM_RND 1 (rnd_start c' [])))).
  generalize (counters_fold_back c (sweeps KEYSTREAM_RND 1 (rnd_start c' []))).
  generalize (counters_fold_back c' (sweeps KEYSTREAM_RND 1 (rnd_start c' []))).
  intros d' d b Hfb. unfold same_core in *. ctx_fields. auto.
Qed.

Lemma served_same_core n c c' :
  same_core c c' ->
  served n c = served n c' /\ same_core (after_bytes n c) (after_bytes n c').
Proof.
  revert c c'. induction n as [|n IH]; intros c c' Hc; cbn [served after_bytes].
  - auto.
  - destruct (serve_byte_same_core c c' Hc) as [Hs Hb].
    destruct (IH _ _ Hs) as [IHs IHa]. rewrite Hb, IHs. auto.
Qed.

Lemma keystream_blocks_returns_Z (fuel : nat) c blocks :
  0 <= blocks < 2 ^ 32 -> blocks mod 16 = 0 ->
  (Z.to_nat (blocks / 16) <= fuel)%nat ->
  ECRYPT_keystream_blocks fuel (Some c) Buf blocks =
    Ret (counters_fold_back c
           (sweeps KEYSTREAM_RND (Z.to_nat (blocks / 16)) (rnd_start c [])),
         rout (sweeps KEYSTREAM_RND (Z.to_nat (blocks / 16)) (rnd_start c []))).
Proof.
  intros Hb Hm Hf.
  pose proof (multiple_of_16 blocks ltac:(lia) Hm) as Hk.
  rewrite Hk at 1. apply keystream_blocks_returns; [lia | exact Hf].
Qed.

Lemma process_blocks_returns_Z (fuel : nat) action c input blocks :
  0 <= blocks < 2 ^ 32 -> blocks mod 16 = 0 ->
  (Z.to_nat (blocks / 16) <= fuel)%nat ->
  ECRYPT_process_blocks fuel action (Some c) (Some input) Buf blocks =
    Ret (counters_fold_back c
           (sweeps PROCESS_RND (Z.to_nat (blocks / 16)) (rnd_start c input)),
         rout (sweeps PROCESS_RND (Z.to_nat (blocks / 16)) (rnd_start c input))).
Proof.
  intros Hb Hm Hf.
  pose proof (multiple_of_16 blocks ltac:(lia) Hm) as Hk.
  rewrite Hk at 1. apply process_blocks_returns; [lia | exact Hf].
Qed.

Lemma same_core_same_keystream (fuel : nat) s s' blocks len :
  same_core s s' -> buffer_index s = 0 -> buffer_index s' = 0 ->
  0 <= blocks < 2 ^ 32 -> blocks mod 16 = 0 ->
  (Z.to_nat (blocks / 16) <= fuel)%nat -> (1 <= fuel)%nat ->
  same_keystream fuel s s' blocks len.
Proof.
  intros Hc Hb Hb' Hr Hm Hf Hf1. split.
  - rewrite !keystream_blocks_returns_Z by assumption.
    rewrite (same_core_start s s' [] Hc).
    eexists _, _, _. split; [reflexivity|]. split; [reflexivity|].
    split; [|apply same_core_fold_back, Hc].
    rewrite (sweeps_rout_length _ _ _ macro_keystream). reflexivity.
  - unfold ECRYPT_keystream_bytes.
    rewrite !keystream_bytes_loop_total by assumption.
    destruct (served_same_core (Z.to_nat len) s s' Hc) as [Hs Ha].
    rewrite Hs. eexists _, _, _. split; [reflexivity|]. split; [reflexivity|].
    split; [apply served_length | exact Ha].
Qed.

(** C5: two runs of key setup, IV setup and keystream generation with the
    same key and IV, started on any two contexts, return the same keystream
    (by blocks and by bytes): the merge of the IV leaves no NLFSR word from
    before key setup, and the contexts after IV setup agree on NLFSR and
    counters. *)
Theorem keystream_is_deterministic
    (fuel : nat) (ctx0 ctx0' : ECRYPT_ctx) (key : list Z) (keysize ivsize : Z)
    (iv : list Z) (blocks len : Z) :
  length (nlfsr_word ctx0) = 32%nat -> length (nlfsr_word ctx0') = 32%nat ->
  0 <= blocks < 2 ^ 32 -> blocks mod 16 = 0 ->
  (Z.to_nat (blocks / 16) <= fuel)%nat -> (1 <= fuel)%nat ->
  exists ck s ck' s',
    ECRYPT_keysetup (Some ctx0) (Some key) keysize ivsize = Ret ck /\
    ECRYPT_ivsetup (Some ck) (Some iv) = Ret s /\
    ECRYPT_keysetup (Some ctx0') (Some key) keysize ivsize = Ret ck' /\
    ECRYPT_ivsetup (Some ck') (Some iv) = Ret s' /\
    nlfsr_word (iv_merge ck iv) = nlfsr_word (iv_merge ck' iv) /\
    same_core s s' /\
    same_keystream fuel s s' blocks len.
Proof.
  intros Hw Hw' Hr Hm Hf Hf1.
  exists (keysetup_body ctx0 key keysize ivsize),
         (ivsetup_body (keysetup_body ctx0 key keysize ivsize) iv),
         (keysetup_body ctx0' key keysize ivsize),
         (ivsetup_body (keysetup_body ctx0' key keysize ivsize) iv).
  do 4 (split; [reflexivity|]).
  split; [apply merge_overwrites_stale_words; assumption|].
  pose proof (keysetup_ivsetup_same_core ctx0 ctx0' key keysize ivsize iv Hw Hw')
    as Hcore.
  split; [exact Hcore|].
  destruct (keysetup_body_keyed ctx0 key keysize ivsize) as (Hkeyed & _ & _).
  destruct (keysetup_body_keyed ctx0' key keysize ivsize) as (Hkeyed' & _ & _).
  destruct (ivsetup_body_keyed _ _ _ _ iv Hkeyed) as ((_ & _ & _ & _ & Hb) & _).
  destruct (ivsetup_body_keyed _ _ _ _ iv Hkeyed') as ((_ & _ & _ & _ & Hb') & _).
  apply same_core_same_keystream; assumption.
Qed.

(** ** Re-running IV setup under one key *)

Lemma keysetup_snapshot ctx0 key keysize ivsize :
  length (nlfsr_word ctx0) = 32%nat -> length (init_state ctx0) = 32%nat ->
  init_state (keysetup_body ctx0 key keysize ivsize) =
  nlfsr_word (keysetup_body ctx0 key keysize ivsize).
Proof.
  intros Hw Hs. unfold keysetup_body.
  destruct (keysize =? 128); ctx_fields; apply copy_words_full; try exact Hs;
    rewrite ?(fold_left_length _ _ _ (key128_kswap_length key)),
            ?(fold_left_length _ _ _ (key128_k_length key)),
            ?(fold_left_length _ _ _ (key256_k_length key)); exact Hw.
Qed.

Lemma ivsetup_ret c iv c' :
  ECRYPT_ivsetup (Some c) (Some iv) = Ret c' -> c' = ivsetup_body c iv.
Proof. unfold ECRYPT_ivsetup. intros Hk. apply Ret_inj in Hk. congruence. Qed.

(** C6: under one key, an IV setup that is not the first one starts from
    the snapshot: whatever calls were made since the first IV setup
    (keystream, processing, other IVs), setting the same IV again gives the
    NLFSR and counters of the first run, and the same keystream after it. *)
Theorem ivsetup_rerun_reproduces
    (fuel : nat) (ctx0 : ECRYPT_ctx) (key : list Z) (keysize ivsize : Z)
    (iv : list Z) (calls : list api_call) (ctxk s1 s2 : ECRYPT_ctx)
    (blocks len : Z) :
  length (nlfsr_word ctx0) = 32%nat -> length (init_state ctx0) = 32%nat ->
  ECRYPT_keysetup (Some ctx0) (Some key) keysize ivsize = Ret ctxk ->
  ECRYPT_ivsetup (Some ctxk) (Some iv) = Ret s1 ->
  run_calls fuel s1 calls = Ret s2 ->
  0 <= blocks < 2 ^ 32 -> blocks mod 16 = 0 ->
  (Z.to_nat (blocks / 16) <= fuel)%nat -> (1 <= fuel)%nat ->
  full_rekeying s2 = 0 /\
  nlfsr_word (iv_restore s2) = nlfsr_word ctxk /\
  exists s3,
    ECRYPT_ivsetup (Some s2) (Some iv) = Ret s3 /\
    same_core s3 s1 /\
    same_keystream fuel s3 s1 blocks len.
Proof.
  intros Hw Hs Hkey Hiv Hrun Hr Hm Hf Hf1.
  apply keysetup_ret in Hkey. apply ivsetup_ret in Hiv.
  pose proof (keysetup_snapshot ctx0 key keysize ivsize Hw Hs) as Hsnap.
  destruct (keysetup_body_keyed ctx0 key keysize ivsize) as (Hkeyed & _ & Hfrk).
  rewrite <- Hkey in Hsnap, Hkeyed, Hfrk. rewrite Hw in Hkeyed.
  destruct (ivsetup_body_keyed _ _ _ _ iv Hkeyed) as (Hkeyed1 & Hfr1).
  rewrite <- Hiv in Hkeyed1, Hfr1.
  destruct (run_calls_keyed _ _ _ _ _ _ _ Hkeyed1 Hrun) as (Hkeyed2 & Hfr2).
  specialize (Hfr2 Hfr1).
  assert (nlfsr_word (iv_restore s2) = nlfsr_word ctxk) as Hrestore.
  { destruct Hkeyed2 as (HK2 & _ & Hn2 & _). destruct Hkeyed as (_ & _ & Hnk & _).
    unfold iv_restore. rewrite Hfr2. cbn [Z.eqb]. unfold set_nlfsr_word.
    cbn [nlfsr_word]. rewrite copy_words_full; [congruence | | exact Hn2].
    rewrite HK2, Hsnap. exact Hnk. }
  split; [exact Hfr2|]. split; [exact Hrestore|].
  exists (ivsetup_body s2 iv). split; [reflexivity|].
  assert (same_core (ivsetup_body s2 iv) s1) as Hcore.
  { rewrite Hiv. apply ivsetup_body_depends.
    - rewrite Hrestore, (iv_restore_fresh _ Hfrk). reflexivity.
    - destruct Hkeyed2 as (_ & -> & _). destruct Hkeyed as (_ & -> & _). reflexivity.
    - destruct Hkeyed2 as (_ & _ & _ & -> & _).
      destruct Hkeyed as (_ & _ & _ & -> & _). reflexivity. }
  split; [exact Hcore|].
  destruct (ivsetup_body_keyed _ _ _ _ iv Hkeyed2) as ((_ & _ & _ & _ & Hb3) & _).
  destruct Hkeyed1 as (_ & _ & _ & _ & Hb1).
  apply same_core_same_keystream; assumption.
Qed.

(** ** Processing is exclusive-or with the keystream *)

Lemma nth_skipn_add (l : list Z) (n i : nat) :
  nth i (skipn n l) 0 = nth (n + i) l 0.
Proof. rewrite !nth_lookup, lookup_drop. reflexivity. Qed.

Lemma xor_stream_snoc2 input ks k0 k1 :
  xor_stream input (ks ++ [k0; k1]) =
  xor_stream input ks ++
    [Z.lxor (nth (length ks) input 0) k0; Z.lxor (nth (length ks + 1) input 0) k1].
Proof.
  unfold xor_stream. rewrite imap_app. cbn [imap].
  rewrite Nat.add_0_r. reflexivity.
Qed.

Lemma in_step_round input sp sk l :
  in_step input sp sk -> in_step input (PROCESS_RND sp l) (KEYSTREAM_RND sk l).
Proof.
  intros (Hw & Hc1 & Hc2 & Hin & Hout).
  unfold PROCESS_RND, KEYSTREAM_RND. rewrite Hw, Hc1, Hc2.
  destruct (BASIC_RND (rw sk) l (rc1 sk) (rc2 sk)) as [[w r] c2].
  unfold in_step. cbn [rw rc1 rc2 rin rout].
  split; [reflexivity|]. split; [reflexivity|]. split; [reflexivity|]. split.
  - rewrite Hin, length_app, drop_drop. reflexivity.
  - rewrite Hout, Hin, xor_stream_snoc2, !nth_skipn_add, Nat.add_0_r.
    unfold round_key0, round_key1. rewrite !Z.lxor_assoc. reflexivity.
Qed.

Lemma in_step_rounds input rows sp sk :
  in_step input sp sk ->
  in_step input (fold_left PROCESS_RND rows sp) (fold_left KEYSTREAM_RND rows sk).
Proof.
  revert sp sk. induction rows as [|l rows IH]; intros sp sk Hs; cbn [fold_left].
  - exact Hs.
  - apply IH, in_step_round, Hs.
Qed.

Lemma in_step_sweeps input k sp sk :
  in_step input sp sk ->
  in_step input (sweeps PROCESS_RND k sp) (sweeps KEYSTREAM_RND k sk).
Proof.
  revert sp sk. induction k as [|k IH]; intros sp sk Hs.
  - exact Hs.
  - rewrite !sweeps_S. apply IH. apply in_step_rounds, Hs.
Qed.

Lemma in_step_start c input : in_step input (rnd_start c input) (rnd_start c []).
Proof. unfold in_step, rnd_start. cbn. auto 10. Qed.

Lemma in_step_fold_back c input sp sk :
  in_step input sp sk -> counters_fold_back c sp = counters_fold_back c sk.
Proof.
  intros (Hw & Hc1 & Hc2 & _). unfold counters_fold_back.
  rewrite Hw, Hc1, Hc2. reflexivity.
Qed.

Lemma xor_stream_length input ks : length (xor_stream input ks) = length ks.
Proof. unfold xor_stream. apply length_imap. Qed.

Lemma xor_stream_involutive input ks :
  length input = length ks -> xor_stream (xor_stream input ks) ks = input.
Proof.
  intros Hlen. apply list_eq. intros i. unfold xor_stream at 1.
  rewrite list_lookup_imap.
  destruct (ks !! i) as [k|] eqn:Hk; cbn [fmap option_fmap option_map].
  - assert (i < length input)%nat as Hi
      by (rewrite Hlen; apply (lookup_lt_Some _ _ _ Hk)).
    destruct (lookup_lt_is_Some_2 input i Hi) as [m Hm].
    rewrite Hm. f_equal.
    rewrite nth_lookup. unfold xor_stream. rewrite list_lookup_imap, Hk.
    cbn [fmap option_fmap option_map default].
    rewrite nth_lookup, Hm. cbn [default]. apply lxor_cancel_r.
  - symmetry. apply lookup_ge_None. rewrite Hlen. apply lookup_ge_None. exact Hk.
Qed.

(** A processing call is the keystream call of the same size, with the
    keystream combined into the input. *)
Lemma process_blocks_is_xor (fuel : nat) action c input blocks :
  0 <= blocks < 2 ^ 32 -> blocks mod 16 = 0 ->
  (Z.to_nat (blocks / 16) <= fuel)%nat ->
  exists c' ks,
    ECRYPT_keystream_blocks fuel (Some c) Buf blocks = Ret (c', ks) /\
    ECRYPT_process_blocks fuel action (Some c) (Some input) Buf blocks =
      Ret (c', xor_stream input ks) /\
    length ks = Z.to_nat (2 * blocks).
Proof.
  intros Hr Hm Hf.
  rewrite keystream_blocks_returns_Z, process_blocks_returns_Z by assumption.
  pose proof (in_step_sweeps input (Z.to_nat (blocks / 16)) _ _
                (in_step_start c input)) as Hstep.
  rewrite (in_step_fold_back c input _ _ Hstep).
  destruct Hstep as (_ & _ & _ & _ & ->).
  eexists _, _. split; [reflexivity|]. split; [reflexivity|].
  rewrite (sweeps_rout_length _ _ _ macro_keystream). cbn [rnd_start rout length].
  pose proof (multiple_of_16 blocks ltac:(lia) Hm). lia.
Qed.

Lemma process_blocks_undoes_itself (fuel : nat) s s' msg blocks action action' :
  same_core s s' ->
  0 <= blocks < 2 ^ 32 -> blocks mod 16 = 0 ->
  (Z.to_nat (blocks / 16) <= fuel)%nat ->
  length msg = Z.to_nat (2 * blocks) ->
  exists c ct c',
    ECRYPT_process_blocks fuel action (Some s) (Some msg) Buf blocks = Ret (c, ct) /\
    ECRYPT_process_blocks fuel action' (Some s') (Some ct) Buf blocks = Ret (c', msg) /\
    length ct = length msg.
Proof.
  intros Hcore Hr Hm Hf Hlen.
  destruct (process_blocks_is_xor fuel action s msg blocks Hr Hm Hf)
    as (c & ks & Hks & Henc & Hksl).
  destruct (process_blocks_is_xor fuel action' s' (xor_stream msg ks) blocks Hr Hm Hf)
    as (c' & ks' & Hks' & Hdec & _).
  pose proof (keystream_blocks_same_core fuel s s' blocks Hcore) as Hsame.
  rewrite Hks, Hks' in Hsame. destruct Hsame as [_ <-].
  rewrite xor_stream_involutive in Hdec by congruence.
  exists c, (xor_stream msg ks), c'.
  split; [exact Henc|]. split; [exact Hdec|].
  rewrite xor_stream_length. congruence.
Qed.

(** C4: decrypting what was encrypted under the same key and IV gives the
    message back, whatever the two contexts held before key setup and
    whatever the two direction flags are; the direction flag never enters
    the computation. *)
Theorem process_blocks_self_inverse
    (fuel : nat) (ctx0 ctx0' : ECRYPT_ctx) (key : list Z) (keysize ivsize : Z)
    (iv msg : list Z) (blocks action action' : Z) :
  length (nlfsr_word ctx0) = 32%nat -> length (nlfsr_word ctx0') = 32%nat ->
  0 <= blocks < 2 ^ 32 -> blocks mod 16 = 0 ->
  (Z.to_nat (blocks / 16) <= fuel)%nat ->
  length msg = Z.to_nat (2 * blocks) ->
  (exists ck s ck' s' c ct c',
      ECRYPT_keysetup (Some ctx0) (Some key) keysize ivsize = Ret ck /\
      ECRYPT_ivsetup (Some ck) (Some iv) = Ret s /\
      ECRYPT_keysetup (Some ctx0') (Some key) keysize ivsize = Ret ck' /\
      ECRYPT_ivsetup (Some ck') (Some iv) = Ret s' /\
      ECRYPT_process_blocks fuel action (Some s) (Some msg) Buf blocks = Ret (c, ct) /\
      ECRYPT_process_blocks fuel action' (Some s') (Some ct) Buf blocks
        = Ret (c', msg) /\
      length ct = length msg) /\
  (forall c input a a',
      ECRYPT_process_blocks fuel a (Some c) (Some input) Buf blocks =
      ECRYPT_process_blocks fuel a' (Some c) (Some input) Buf blocks).
Proof.
  intros Hw Hw' Hr Hm Hf Hlen.
  split; [|intros c input a a'; unfold ECRYPT_process_blocks; reflexivity].
  pose proof (keysetup_ivsetup_same_core ctx0 ctx0' key keysize ivsize iv Hw Hw')
    as Hcore.
  destruct (process_blocks_undoes_itself fuel _ _ msg blocks action action'
              Hcore Hr Hm Hf Hlen) as (c & ct & c' & Henc & Hdec & Hct).
  exists (keysetup_body ctx0 key keysize ivsize),
         (ivsetup_body (keysetup_body ctx0 key keysize ivsize) iv),
         (keysetup_body ctx0' key keysize ivsize),
         (ivsetup_body (keysetup_body ctx0' key keysize ivsize) iv),
         c, ct, c'.
  do 4 (split; [reflexivity|]). auto.
Qed.

(** ** Bytes against blocks *)

Lemma words_to_bytes_length ws : length (words_to_bytes ws) = (4 * length ws)%nat.
Proof.
  unfold words_to_bytes. induction ws as [|w ws IH]; [reflexivity|].
  cbn [map concat]. rewrite length_app, IH. cbn [word_bytes length]. lia.
Qed.

(** The low counter after [len] byte requests is never the low counter
    after the [len / 8] blocks of the same length. *)
Lemma byte_and_block_counters_differ c len :
  0 < len < 2 ^ 32 -> len mod 128 = 0 ->
  wrap32 (c + 16 * len) <> wrap32 (c + len / 8).
Proof.
  intros Hlen Hm Heq.
  apply Z.div_exact in Hm; [|lia].
  set (m := len / 128) in *. clearbody m. subst len.
  replace (128 * m / 8) with (16 * m) in Heq
    by (replace (128 * m) with (16 * m * 8) by lia; rewrite Z.div_mul; lia).
  unfold wrap32 in Heq.
  assert ((2032 * m) mod 2 ^ 32 = 0) as Hz.
  { replace (2032 * m) with ((c + 16 * (128 * m)) - (c + 16 * m)) by lia.
    rewrite Zminus_mod, Heq, Z.sub_diag. reflexivity. }
  apply Z.mod_divide in Hz; [|lia].
  assert ((2 ^ 28 | 127 * m)) as Hd.
  { destruct Hz as [q Hq]. exists q.
    change (2 ^ 32) with (16 * 2 ^ 28) in Hq. lia. }
  apply Z.gauss in Hd; [|reflexivity].
  destruct Hd as [q Hq]. change (2 ^ 28) with 268435456 in Hq.
  change (2 ^ 32) with 4294967296 in Hlen. lia.
Qed.

(** C1 (what the code does instead): asked for [len] bytes, a positive
    multiple of 128, the adapter returns [len] bytes, but each is byte 0 of
    a refill of its own: it runs [len] sweeps of the round function where
    the block call for the same length runs [len / 128], and leaves the
    cipher in a different state. *)
Theorem keystream_bytes_leaves_block_trajectory
    (fuel : nat) (ctx : ECRYPT_ctx) (len : Z) :
  buffer_index ctx = 0 -> 0 < len < 2 ^ 32 -> len mod 128 = 0 ->
  (Z.to_nat (len / 8 / 16) <= fuel)%nat -> (1 <= fuel)%nat ->
  exists cb bytes ck ws,
    ECRYPT_keystream_bytes fuel (Some ctx) Buf len = Ret (cb, bytes) /\
    ECRYPT_keystream_blocks fuel (Some ctx) Buf (len / 8) = Ret (ck, ws) /\
    length bytes = Z.to_nat len /\
    length (words_to_bytes ws) = Z.to_nat len /\
    bytes = served (Z.to_nat len) ctx /\
    state_counter1 cb = wrap32 (state_counter1 ctx + 16 * len) /\
    state_counter1 ck = wrap32 (state_counter1 ctx + len / 8) /\
    state_counter1 cb <> state_counter1 ck.
Proof.
  intros Hb Hlen Hm Hf Hf1.
  assert (len = 128 * (len / 128)) as Hdiv by (apply Z.div_exact; lia).
  set (m := len / 128) in *. clearbody m.
  assert (len / 8 = 16 * m) as H8
    by (rewrite Hdiv; replace (128 * m) with (16 * m * 8) by lia;
        rewrite Z.div_mul; lia).
  assert ((len / 8) mod 16 = 0) as Hm16
    by (rewrite H8, Z.mul_comm; apply Z.mod_mul; lia).
  assert (len / 8 / 16 = m) as H16
    by (rewrite H8, Z.mul_comm; apply Z.div_mul; lia).
  assert (0 < m) as Hmpos by lia.
  unfold ECRYPT_keystream_bytes.
  rewrite (keystream_bytes_loop_total fuel (Z.to_nat len) ctx [] Hb Hf1).
  rewrite keystream_blocks_returns_Z by (try assumption; lia).
  eexists _, _, _, _. split; [reflexivity|]. split; [reflexivity|].
  split; [apply served_length|].
  split.
  { rewrite words_to_bytes_length, (sweeps_rout_length _ _ _ macro_keystream).
    cbn [rnd_start rout length]. rewrite H16. lia. }
  split; [reflexivity|].
  assert (state_counter1 (after_bytes (Z.to_nat len) ctx) =
          wrap32 (state_counter1 ctx + 16 * len)) as Hcb.
  { rewrite after_bytes_counter_pos by lia. rewrite Z2Nat.id by lia. reflexivity. }
  assert (state_counter1
            (counters_fold_back ctx
               (sweeps KEYSTREAM_RND (Z.to_nat (len / 8 / 16)) (rnd_start ctx []))) =
          wrap32 (state_counter1 ctx + len / 8)) as Hck.
  { rewrite (proj1 (counters_fold_back_spec KEYSTREAM_RND ctx []
                      (Z.to_nat (len / 8 / 16)) macro_keystream ltac:(lia))).
    rewrite Z2Nat.id by lia. rewrite H16, H8. reflexivity. }
  split; [exact Hcb|]. split; [exact Hck|].
  rewrite Hcb, Hck. apply byte_and_block_counters_differ; assumption.
Qed.

(** ** What the calls deliver *)

Lemma log2_u32 a : is_u32 a -> Z.log2 a < 32.
Proof.
  intros [Ha0 Ha]. destruct (Z.eq_dec a 0) as [->|Hne]; [reflexivity|].
  apply Z.log2_lt_pow2; lia.
Qed.

Lemma lxor_is_u32 a b : is_u32 a -> is_u32 b -> is_u32 (Z.lxor a b).
Proof.
  intros Ha Hb. pose proof (log2_u32 a Ha) as Hla. pose proof (log2_u32 b Hb) as Hlb.
  destruct Ha as [Ha0 Ha]. destruct Hb as [Hb0 Hb].
  assert (0 <= Z.lxor a b) as Hx by (apply Z.lxor_nonneg; tauto).
  split; [exact Hx|].
  destruct (Z.eq_dec (Z.lxor a b) 0) as [->|Hne]; [lia|].
  apply Z.log2_lt_pow2; [lia|].
  pose proof (Z.log2_lxor a b Ha0 Hb0). lia.
Qed.

Lemma wrap32_is_u32 x : is_u32 (wrap32 x).
Proof. apply wrap32_range. Qed.

Lemma word_bytes_u8 w : Forall is_u8 (word_bytes w).
Proof.
  unfold word_bytes, is_u8.
  repeat constructor; change 255 with (Z.ones 8);
    rewrite Z.land_ones by lia; apply Z.mod_pos_bound; lia.
Qed.

Lemma words_to_bytes_u8 ws : Forall is_u8 (words_to_bytes ws).
Proof.
  unfold words_to_bytes. induction ws as [|w ws IH]; cbn [map concat].
  - constructor.
  - apply Forall_app. split; [apply word_bytes_u8 | exact IH].
Qed.


(** The two words of a round are [u32] values whatever the NLFSR holds. *)
Lemma BASIC_RND_keys_u32 w l c1 c2 :
  is_u32 (round_key0 (snd (fst (BASIC_RND w l c1 c2)))) /\
  is_u32 (round_key1 (snd (fst (BASIC_RND w l c1 c2)))).
Proof.
  unfold BASIC_RND, BASIC_RND_load, BASIC_RND_mix, round_key0, round_key1.
  cbn [fst snd ra rb rc rd re rf].
  split; apply lxor_is_u32; apply wrap32_is_u32.
Qed.

Lemma KEYSTREAM_RND_out_u32 s l :
  Forall is_u32 (rout s) -> Forall is_u32 (rout (KEYSTREAM_RND s l)).
Proof.
  intros Hs. unfold KEYSTREAM_RND.
  pose proof (BASIC_RND_keys_u32 (rw s) l (rc1 s) (rc2 s)) as [Hk0 Hk1].
  destruct (BASIC_RND (rw s) l (rc1 s) (rc2 s)) as [[w r] c2].
  cbn [fst snd] in Hk0, Hk1. cbn [rout].
  apply Forall_app. split; [exact Hs|].
  constructor; [exact Hk0|]. constructor; [exact Hk1|]. constructor.
Qed.

Lemma keystream_rounds_out_u32 rows s :
  Forall is_u32 (rout s) -> Forall is_u32 (rout (fold_left KEYSTREAM_RND rows s)).
Proof.
  revert s. induction rows as [|l rows IH]; intros s Hs; cbn [fold_left].
  - exact Hs.
  - apply IH, KEYSTREAM_RND_out_u32, Hs.
Qed.

Lemma keystream_sweeps_out_u32 k s :
  Forall is_u32 (rout s) -> Forall is_u32 (rout (sweeps KEYSTREAM_RND k s)).
Proof.
  revert s. induction k as [|k IH]; intros s Hs.
  - exact Hs.
  - rewrite sweeps_S. apply IH. apply keystream_rounds_out_u32, Hs.
Qed.

(** X1: a keystream call for a multiple of 16 blocks returns, and stores
    exactly two words per block, 8 * blocks bytes as its header comment
    says; every word is a [u32] and every byte a [u8], whatever the context
    held. *)
Theorem keystream_blocks_output (fuel : nat) (ctx : ECRYPT_ctx) (blocks : Z) :
  0 <= blocks < 2 ^ 32 -> blocks mod 16 = 0 ->
  (Z.to_nat (blocks / 16) <= fuel)%nat ->
  exists ctx' ks,
    ECRYPT_keystream_blocks fuel (Some ctx) Buf blocks = Ret (ctx', ks) /\
    length ks = Z.to_nat (2 * blocks) /\
    length (words_to_bytes ks) = Z.to_nat (8 * blocks) /\
    Forall is_u32 ks /\
    Forall is_u8 (words_to_bytes ks).
Proof.
  intros Hr Hm Hf.
  rewrite keystream_blocks_returns_Z by assumption.
  eexists _, _. split; [reflexivity|].
  pose proof (multiple_of_16 blocks ltac:(lia) Hm) as Hk.
  assert (length (rout (sweeps KEYSTREAM_RND (Z.to_nat (blocks / 16))
                          (rnd_start ctx []))) = Z.to_nat (2 * blocks)) as Hlen.
  { rewrite (sweeps_rout_length _ _ _ macro_keystream).
    cbn [rnd_start rout length]. lia. }
  split; [exact Hlen|].
  split; [rewrite words_to_bytes_length, Hlen; lia|].
  split; [|apply words_to_bytes_u8].
  apply keystream_sweeps_out_u32. constructor.
Qed.

(** ** Assertions *)

Lemma blocks_loop_no_assert RND (fuel : nat) blocks s :
  blocks_loop RND fuel blocks s <> AssertFail.
Proof.
  revert blocks s. induction fuel as [|fuel IH]; intros blocks s; cbn [blocks_loop];
    destruct (blocks >? 0); try discriminate. apply IH.
Qed.

Lemma keystream_blocks_no_assert (fuel : nat) c blocks :
  ECRYPT_keystream_blocks fuel (Some c) Buf blocks <> AssertFail.
Proof.
  unfold ECRYPT_keystream_blocks.
  pose proof (blocks_loop_no_assert KEYSTREAM_RND fuel blocks (rnd_start c [])) as Hl.
  destruct (blocks_loop _ _ _ _); cbn [mbind result_bind mret result_ret];
    [discriminate | contradiction Hl; reflexivity | discriminate].
Qed.

Lemma process_blocks_no_assert (fuel : nat) action c input blocks :
  ECRYPT_process_blocks fuel action (Some c) (Some input) Buf blocks <> AssertFail.
Proof.
  unfold ECRYPT_process_blocks.
  pose proof (blocks_loop_no_assert PROCESS_RND fuel blocks (rnd_start c input)) as Hl.
  destruct (blocks_loop _ _ _ _); cbn [mbind result_bind mret result_ret];
    [discriminate | contradiction Hl; reflexivity | discriminate].
Qed.

Lemma keystream_bytes_loop_no_assert (fuel n : nat) c out :
  keystream_bytes_loop fuel n c out <> AssertFail.
Proof.
  revert c out. induction n as [|n IH]; intros c out; cbn [keystream_bytes_loop].
  - discriminate.
  - destruct (buffer_index c =? 0).
    + pose proof (keystream_blocks_no_assert fuel c DRAGON_BUFFER_SIZE) as Hk.
      destruct (ECRYPT_keystream_blocks fuel (Some c) Buf DRAGON_BUFFER_SIZE)
        as [[c1 ws]| |]; cbn [mbind result_bind mret result_ret];
        [apply IH | contradiction Hk; reflexivity | discriminate].
    + cbn [mbind result_bind]. apply IH.
Qed.

Lemma keystream_bytes_no_assert (fuel : nat) c len :
  ECRYPT_keystream_bytes fuel (Some c) Buf len <> AssertFail.
Proof. unfold ECRYPT_keystream_bytes. apply keystream_bytes_loop_no_assert. Qed.

Lemma process_bytes_no_assert (fuel : nat) action c input msglen :
  ECRYPT_process_bytes fuel action (Some c) (Some input) Buf msglen <> AssertFail.
Proof.
  unfold ECRYPT_process_bytes.
  pose proof (keystream_bytes_no_assert fuel c msglen) as Hk.
  destruct (ECRYPT_keystream_bytes fuel (Some c) Buf msglen) as [[c1 o]| |];
    cbn [mbind result_bind mret result_ret];
    [discriminate | contradiction Hk; reflexivity | discriminate].
Qed.

(** X2: each entry point fails its assertion exactly when one of the
    pointers it is given is null: no size, count, length or content makes
    an assertion fail, also not the refill calls the byte calls make. *)
Theorem assertions_fail_on_null_only :
  (forall c key keysize ivsize,
      ECRYPT_keysetup c key keysize ivsize = AssertFail <-> c = None \/ key = None) /\
  (forall c iv,
      ECRYPT_ivsetup c iv = AssertFail <-> c = None \/ iv = None) /\
  (forall fuel c p blocks,
      ECRYPT_keystream_blocks fuel c p blocks = AssertFail <-> c = None \/ p = NULL) /\
  (forall fuel action c input p blocks,
      ECRYPT_process_blocks fuel action c input p blocks = AssertFail <->
      c = None \/ input = None \/ p = NULL) /\
  (forall fuel c p len,
      ECRYPT_keystream_bytes fuel c p len = AssertFail <-> c = None \/ p = NULL) /\
  (forall fuel action c input p msglen,
      ECRYPT_process_bytes fuel action c input p msglen = AssertFail <->
      c = None \/ input = None \/ p = NULL).
Proof.
  split; [|split; [|split; [|split; [|split]]]].
  - intros [c|] [key|] keysize ivsize; cbn [ECRYPT_keysetup]; split; intros Hf;
      try discriminate Hf; auto; destruct Hf; discriminate.
  - intros [c|] [iv|]; cbn [ECRYPT_ivsetup]; split; intros Hf;
      try discriminate Hf; auto; destruct Hf; discriminate.
  - intros fuel [c|] [|] blocks; split; intros Hf; auto;
      try (destruct Hf; discriminate).
    exfalso. exact (keystream_blocks_no_assert _ _ _ Hf).
  - intros fuel action [c|] [input|] [|] blocks; split; intros Hf; auto;
      try (destruct Hf as [Hf|[Hf|Hf]]; discriminate).
    exfalso. exact (process_blocks_no_assert _ _ _ _ _ Hf).
  - intros fuel [c|] [|] len; split; intros Hf; auto;
      try (destruct Hf; discriminate).
    exfalso. exact (keystream_bytes_no_assert _ _ _ Hf).
  - intros fuel action [c|] [input|] [|] msglen; split; intros Hf; auto;
      try (destruct Hf as [Hf|[Hf|Hf]]; discriminate).
    exfalso. exact (process_bytes_no_assert _ _ _ _ _ Hf).
Qed.

(** ** Empty requests *)

Lemma counters_fold_back_start c input :
  counters_fold_back c (rnd_start c input) = c.
Proof.
  destruct c as [w c0 c1 ini ks off buf bi fr].
  unfold counters_fold_back, rnd_start. ctx_fields. cbn [rw rc1 rc2].
  rewrite Z.ltb_irrefl. reflexivity.
Qed.

Lemma blocks_loop_0 RND (fuel : nat) s : blocks_loop RND fuel 0 s = Ret s.
Proof. destruct fuel; reflexivity. Qed.

(** X3: a request for nothing changes nothing: a block call for 0 blocks
    and a byte call for 0 bytes return the context as it was and an empty
    output, with any fuel and whatever the context holds. *)
Theorem empty_requests_change_nothing
    (fuel : nat) (ctx : ECRYPT_ctx) (action : Z) (input : list Z) :
  ECRYPT_keystream_blocks fuel (Some ctx) Buf 0 = Ret (ctx, []) /\
  ECRYPT_process_blocks fuel action (Some ctx) (Some input) Buf 0 = Ret (ctx, []) /\
  ECRYPT_keystream_bytes fuel (Some ctx) Buf 0 = Ret (ctx, []) /\
  ECRYPT_process_bytes fuel action (Some ctx) (Some input) Buf 0 = Ret (ctx, []).
Proof.
  split; [|split; [|split]].
  - unfold ECRYPT_keystream_blocks. rewrite blocks_loop_0.
    cbn [mbind result_bind mret result_ret].
    rewrite counters_fold_back_start. reflexivity.
  - unfold ECRYPT_process_blocks. rewrite blocks_loop_0.
    cbn [mbind result_bind mret result_ret].
    rewrite counters_fold_back_start. reflexivity.
  - reflexivity.
  - reflexivity.
Qed.

(** ** Byte calls from any cursor *)





(** ** Byte processing *)

Lemma xor_input_step input out (m : nat) :
  fold_left (fun o i => <[i := Z.lxor (nth i o 0) (nth i input 0)]> o)
    (seq 0 (S m)) out =
  <[m := Z.lxor (nth m (fold_left
                          (fun o i => <[i := Z.lxor (nth i o 0) (nth i input 0)]> o)
                          (seq 0 m) out) 0) (nth m input 0)]>
    (fold_left (fun o i => <[i := Z.lxor (nth i o 0) (nth i input 0)]> o)
       (seq 0 m) out).
Proof. rewrite seq_S, fold_left_app. reflexivity. Qed.

Lemma xor_bytes_snoc input l x :
  xor_bytes input (l ++ [x]) =
  xor_bytes input l ++ [Z.lxor x (nth (length l) input 0)].
Proof.
  unfold xor_bytes. rewrite imap_app. cbn [imap]. rewrite Nat.add_0_r. reflexivity.
Qed.

Lemma nth_app_at (p d : list Z) (m : nat) (x : Z) :
  length p = m -> nth m (p ++ x :: d) 0 = x.
Proof. intros <-. apply nth_middle. Qed.

Lemma insert_app_at (p d : list Z) (m : nat) (x y : Z) :
  length p = m -> <[m := y]> (p ++ x :: d) = p ++ y :: d.
Proof.
  intros <-. rewrite insert_app_r_alt by lia. rewrite Nat.sub_diag. reflexivity.
Qed.

(** After the loop over [i < m], the first [m] bytes are combined with the
    input and the others are as they were. *)
Lemma xor_input_prefix input out (m : nat) :
  (m <= length out)%nat ->
  fold_left (fun o i => <[i := Z.lxor (nth i o 0) (nth i input 0)]> o)
    (seq 0 m) out =
  xor_bytes input (firstn m out) ++ skipn m out.
Proof.
  induction m as [|m IH]; intros Hm.
  - reflexivity.
  - rewrite xor_input_step, IH by lia.
    destruct (lookup_lt_is_Some_2 out m ltac:(lia)) as [x Hx].
    rewrite (take_S_r out m x Hx), (drop_S out x m Hx).
    assert (length (xor_bytes input (take m out)) = m) as Hlen
      by (unfold xor_bytes; rewrite length_imap, length_take; lia).
    rewrite xor_bytes_snoc, length_take, Nat.min_l by lia.
    rewrite (nth_app_at _ _ m x Hlen), (insert_app_at _ _ m x _ Hlen).
    rewrite <- app_assoc. reflexivity.
Qed.

Lemma xor_input_is_xor_bytes input out msglen :
  length out = Z.to_nat msglen -> xor_input input out msglen = xor_bytes input out.
Proof.
  intros Hlen. unfold xor_input.
  rewrite xor_input_prefix by lia.
  rewrite <- Hlen, firstn_all, skipn_all, app_nil_r. reflexivity.
Qed.







(** ** Block processing against block keystream *)

Lemma xor_stream_nth input ks (i : nat) :
  (i < length ks)%nat ->
  nth i (xor_stream input ks) 0 = Z.lxor (nth i input 0) (nth i ks 0).
Proof.
  intros Hi. destruct (lookup_lt_is_Some_2 ks i Hi) as [k Hk].
  unfold xor_stream. rewrite (nth_lookup (imap _ _)), list_lookup_imap, Hk.
  cbn [fmap option_fmap option_map default]. rewrite (nth_lookup ks), Hk.
  reflexivity.
Qed.

Lemma xor_stream_zeros n ks : xor_stream (repeat 0 n) ks = ks.
Proof.
  apply list_eq. intros i. unfold xor_stream. rewrite list_lookup_imap.
  destruct (ks !! i) as [k|]; cbn [fmap option_fmap option_map]; [|reflexivity].
  f_equal. rewrite nth_repeat. apply Z.lxor_0_l.
Qed.

(** X7: a processing call is the keystream call of the same size with the
    keystream combined into the input word by word; the context it leaves
    is the one the keystream call leaves, whatever the input; processing
    zeros returns the keystream itself. *)
Theorem process_blocks_is_keystream_xor
    (fuel : nat) (action : Z) (ctx : ECRYPT_ctx) (blocks : Z) :
  0 <= blocks < 2 ^ 32 -> blocks mod 16 = 0 ->
  (Z.to_nat (blocks / 16) <= fuel)%nat ->
  exists c' ks,
    ECRYPT_keystream_blocks fuel (Some ctx) Buf blocks = Ret (c', ks) /\
    (forall input,
        ECRYPT_process_blocks fuel action (Some ctx) (Some input) Buf blocks =
        Ret (c', xor_stream input ks)) /\
    (forall input (i : nat), (i < length ks)%nat ->
        nth i (xor_stream input ks) 0 = Z.lxor (nth i input 0) (nth i ks 0)) /\
    ECRYPT_process_blocks fuel action (Some ctx) (Some (repeat 0 (length ks))) Buf
      blocks = Ret (c', ks).
Proof.
  intros Hr Hm Hf.
  destruct (process_blocks_is_xor fuel action ctx [] blocks Hr Hm Hf)
    as (c' & ks & Hks & _ & _).
  assert (forall input,
             ECRYPT_process_blocks fuel action (Some ctx) (Some input) Buf blocks =
             Ret (c', xor_stream input ks)) as Hall.
  { intros input.
    destruct (process_blocks_is_xor fuel action ctx input blocks Hr Hm Hf)
      as (c2 & ks2 & Hks2 & Hp & _).
    rewrite Hks in Hks2. apply Ret_inj in Hks2. injection Hks2 as <- <-.
    exact Hp. }
  exists c', ks. split; [exact Hks|]. split; [exact Hall|].
  split; [intros input i Hi; apply xor_stream_nth, Hi|].
  rewrite Hall, xor_stream_zeros. reflexivity.
Qed.

(** ** A keystream request made in two calls *)

Lemma sweeps_add RND (a b : nat) s :
  sweeps RND (a + b) s = sweeps RND b (sweeps RND a s).
Proof.
  unfold sweeps. rewrite Nat.add_comm. apply Nat.iter_add.
Qed.

Lemma sweeps_S_last RND k s :
  sweeps RND (S k) s = DRAGON_16RND RND (sweeps RND k s).
Proof. reflexivity. Qed.

Lemma keystream_round_stored_before p s s' l :
  stored_before p s s' -> stored_before p (KEYSTREAM_RND s l) (KEYSTREAM_RND s' l).
Proof.
  intros (Hw & Hc1 & Hc2 & Ho). unfold KEYSTREAM_RND.
  rewrite Hw, Hc1, Hc2, Ho.
  destruct (BASIC_RND (rw s') l (rc1 s') (rc2 s')) as [[w r] c2].
  unfold stored_before. cbn [rw rc1 rc2 rout].
  rewrite app_assoc. auto.
Qed.

Lemma keystream_rounds_stored_before p rows s s' :
  stored_before p s s' ->
  stored_before p (fold_left KEYSTREAM_RND rows s) (fold_left KEYSTREAM_RND rows s').
Proof.
  revert s s'. induction rows as [|l rows IH]; intros s s' Hs; [exact Hs|].
  cbn [fold_left]. apply IH, keystream_round_stored_before, Hs.
Qed.

Lemma keystream_sweeps_stored_before p k s s' :
  stored_before p s s' ->
  stored_before p (sweeps KEYSTREAM_RND k s) (sweeps KEYSTREAM_RND k s').
Proof.
  intros Hs. induction k as [|k IH]; [exact Hs|].
  rewrite !sweeps_S_last. revert IH.
  generalize (sweeps KEYSTREAM_RND k s), (sweeps KEYSTREAM_RND k s').
  intros t t' IH. unfold DRAGON_16RND.
  apply keystream_rounds_stored_before, IH.
Qed.

Lemma fold_back_stored_before ctx s :
  rc1 s = state_counter0 ctx -> state_counter1 ctx <= rc2 s ->
  stored_before (rout s) s (rnd_start (counters_fold_back ctx s) []).
Proof.
  intros Hc1 Hc2. destruct ctx. unfold counters_fold_back, rnd_start, stored_before.
  ctx_fields. cbn [state_counter0 state_counter1] in Hc1, Hc2.
  destruct (Z.ltb_spec (rc2 s) state_counter3); [lia|].
  ctx_fields. cbn [rw rc1 rc2 rout]. rewrite app_nil_r. auto.
Qed.

Lemma fold_back_twice ctx s1 e e' :
  state_counter1 ctx <= rc2 s1 ->
  rw e = rw e' -> rc1 e = rc1 e' -> rc2 e = rc2 e' ->
  (rc2 e <? rc2 s1) = (rc2 e <? state_counter1 ctx) ->
  counters_fold_back (counters_fold_back ctx s1) e' = counters_fold_back ctx e.
Proof.
  intros Hc2 Hw H1 H2 Hlt. destruct ctx. unfold counters_fold_back.
  ctx_fields. cbn [state_counter1] in Hc2, Hlt.
  destruct (Z.ltb_spec (rc2 s1) state_counter3); [lia|].
  ctx_fields. rewrite <- Hw, <- H1, <- H2, Hlt.
  destruct (rc2 e <? state_counter3); reflexivity.
Qed.

Lemma wrap32_carry x d1 d2 :
  0 <= x -> 0 <= d1 -> 0 <= d2 -> x + d1 < 2 ^ 32 -> d1 + d2 < 2 ^ 32 ->
  (wrap32 (x + (d1 + d2)) <? x + d1) = (wrap32 (x + (d1 + d2)) <? x).
Proof.
  intros Hx Hd1 Hd2 Hxd Hd. unfold wrap32.
  destruct (Z_lt_le_dec (x + (d1 + d2)) (2 ^ 32)) as [Hs|Hs].
  - rewrite Z.mod_small by lia.
    destruct (Z.ltb_spec (x + (d1 + d2)) (x + d1)),
             (Z.ltb_spec (x + (d1 + d2)) x); try reflexivity; lia.
  - assert ((x + (d1 + d2)) mod 2 ^ 32 = x + (d1 + d2) - 2 ^ 32) as ->.
    { symmetry. apply (Z.mod_unique _ _ 1); lia. }
    destruct (Z.ltb_spec (x + (d1 + d2) - 2 ^ 32) (x + d1)),
             (Z.ltb_spec (x + (d1 + d2) - 2 ^ 32) x); try reflexivity; lia.
Qed.

Lemma sweeps_rc2_small RND k s :
  round_macro RND -> 0 <= rc2 s < 2 ^ 32 ->
  rc2 (sweeps RND k s) = wrap32 (rc2 s + 16 * Z.of_nat k).
Proof.
  intros HR Hs. destruct k as [|k].
  - change (rc2 s = wrap32 (rc2 s + 0)).
    rewrite Z.add_0_r, wrap32_small by lia. reflexivity.
  - apply sweeps_rc2_pos; [exact HR | lia].
Qed.

Lemma keystream_blocks_split (fuel : nat) ctx (ka kb : nat) :
  16 * Z.of_nat (ka + kb) < 2 ^ 32 ->
  0 <= state_counter1 ctx -> state_counter1 ctx + 16 * Z.of_nat ka < 2 ^ 32 ->
  (ka + kb <= fuel)%nat ->
  exists c1 ks1 c2 ks2,
    ECRYPT_keystream_blocks fuel (Some ctx) Buf (16 * Z.of_nat ka) = Ret (c1, ks1) /\
    ECRYPT_keystream_blocks fuel (Some c1) Buf (16 * Z.of_nat kb) = Ret (c2, ks2) /\
    ECRYPT_keystream_blocks fuel (Some ctx) Buf (16 * Z.of_nat (ka + kb)) =
      Ret (c2, ks1 ++ ks2).
Proof.
  intros Hr Hlo Hhi Hf.
  rewrite !keystream_blocks_returns by lia.
  rewrite sweeps_add.
  pose proof (sweeps_rc1 KEYSTREAM_RND ka (rnd_start ctx []) macro_keystream) as Hc1.
  pose proof (sweeps_rc2_small KEYSTREAM_RND ka (rnd_start ctx []) macro_keystream)
    as Hc2.
  pose proof (sweeps_rc2_small KEYSTREAM_RND (ka + kb) (rnd_start ctx [])
                macro_keystream) as Hc3.
  rewrite sweeps_add in Hc3.
  cbn [rnd_start rc1 rc2] in Hc1, Hc2, Hc3.
  specialize (Hc2 ltac:(lia)). specialize (Hc3 ltac:(lia)).
  rewrite wrap32_small in Hc2 by lia.
  revert Hc1 Hc2 Hc3. generalize (sweeps KEYSTREAM_RND ka (rnd_start ctx [])).
  intros s1 Hc1 Hc2 Hc3.
  pose proof (fold_back_stored_before ctx s1 Hc1 ltac:(lia)) as Hst.
  apply (keystream_sweeps_stored_before _ kb) in Hst.
  revert Hst Hc3. generalize (sweeps KEYSTREAM_RND kb s1).
  intros e Hst Hc3.
  eexists _, _, _, _. split; [reflexivity|].
  rewrite keystream_blocks_returns by lia.
  split; [reflexivity|].
  destruct Hst as (Hw & H1 & H2 & Ho).
  rewrite Ho. f_equal. f_equal. symmetry.
  apply fold_back_twice; try assumption; [lia|].
  rewrite Hc3, Hc2, Nat2Z.inj_add, Z.mul_add_distr_l.
  apply wrap32_carry; lia.
Qed.

Lemma two_counts a b :
  0 <= a -> 0 <= b -> a mod 16 = 0 -> b mod 16 = 0 ->
  exists ka kb : nat,
    a = 16 * Z.of_nat ka /\ b = 16 * Z.of_nat kb /\
    a + b = 16 * Z.of_nat (ka + kb) /\
    Z.to_nat ((a + b) / 16) = (ka + kb)%nat.
Proof.
  intros Ha Hb Hma Hmb.
  pose proof (multiple_of_16 a Ha Hma) as Hka.
  pose proof (multiple_of_16 b Hb Hmb) as Hkb.
  exists (Z.to_nat (a / 16)), (Z.to_nat (b / 16)).
  split; [exact Hka|]. split; [exact Hkb|].
  assert ((a + b) / 16 = a / 16 + b / 16) as Hdiv.
  { apply Z.mod_divide in Hma; [|lia]. destruct Hma as [x ->].
    rewrite Z.div_add_l, Z.div_mul by lia. reflexivity. }
  split; [lia|].
  rewrite Hdiv. apply Z2Nat.inj_add; apply Z.div_pos; lia.
Qed.

(** X8: a keystream request may be made in two calls: for counts [a] and
    [b] that are multiples of 16, with the low counter not wrapping during
    the first call, the call for [a] followed by the call for [b] stores
    the words of the single call for [a + b] and leaves the same context. *)
Theorem keystream_blocks_in_two_calls
    (fuel : nat) (ctx : ECRYPT_ctx) (a b : Z) :
  0 <= a -> 0 <= b -> a mod 16 = 0 -> b mod 16 = 0 -> a + b < 2 ^ 32 ->
  0 <= state_counter1 ctx -> state_counter1 ctx + a < 2 ^ 32 ->
  (Z.to_nat ((a + b) / 16) <= fuel)%nat ->
  exists c1 ks1 c2 ks2,
    ECRYPT_keystream_blocks fuel (Some ctx) Buf a = Ret (c1, ks1) /\
    ECRYPT_keystream_blocks fuel (Some c1) Buf b = Ret (c2, ks2) /\
    ECRYPT_keystream_blocks fuel (Some ctx) Buf (a + b) = Ret (c2, ks1 ++ ks2).
Proof.
  intros Ha Hb Hma Hmb Hab Hlo Hhi Hf.
  destruct (two_counts a b Ha Hb Hma Hmb) as (ka & kb & Ea & Eb & Eab & Ek).
  pose proof (keystream_blocks_split fuel ctx ka kb
                ltac:(lia) Hlo ltac:(lia) ltac:(lia)) as Hsplit.
  rewrite <- Ea, <- Eb, <- Eab in Hsplit. exact Hsplit.
Qed.

(** ** The counter pair round by round *)

Lemma rounds_rc2_small RND ls s :
  round_macro RND -> 0 <= rc2 s < 2 ^ 32 ->
  rc2 (fold_left RND ls s) = wrap32 (rc2 s + Z.of_nat (length ls)).
Proof.
  intros HR Hs. destruct ls as [|l ls].
  - cbn [fold_left length Z.of_nat]. rewrite Z.add_0_r, wrap32_small by lia.
    reflexivity.
  - apply rounds_rc2_pos; [exact HR | discriminate].
Qed.

Lemma after_rounds_rc2 RND (i : nat) s :
  round_macro RND -> 0 <= rc2 s < 2 ^ 32 ->
  rc2 (after_rounds RND i s) = wrap32 (rc2 s + Z.of_nat i).
Proof.
  intros HR Hs. unfold after_rounds.
  pose proof (sweeps_rc2_small RND (i / 16) s HR Hs) as Hk.
  rewrite rounds_rc2_small by (try exact HR; rewrite Hk; apply wrap32_range).
  rewrite Hk, wrap32_add_l. f_equal.
  rewrite length_firstn.
  assert (length DRAGON_16RND_rows = 16%nat) as -> by reflexivity.
  pose proof (Nat.div_mod_eq i 16). pose proof (Nat.mod_upper_bound i 16).
  lia.
Qed.

Lemma wrap32_apart x d1 d2 :
  0 <= d1 < d2 -> d2 - d1 < 2 ^ 32 -> wrap32 (x + d1) <> wrap32 (x + d2).
Proof.
  intros Hd Hlt. unfold wrap32. intros E.
  assert ((x + d2 - (x + d1)) mod 2 ^ 32 = 0) as Hz.
  { rewrite Zminus_mod, E, Z.sub_diag. reflexivity. }
  replace (x + d2 - (x + d1)) with (d2 - d1) in Hz by lia.
  rewrite Z.mod_small in Hz by lia. lia.
Qed.

(** X9: the counter pair seen by the rounds of one call: the high word
    [c1] is the same in every round, the low word [c2] before round [i] is
    the starting value plus [i] modulo 2^32, so two rounds less than 2^32
    apart never mix in the same counter pair. *)
Theorem round_counters_never_repeat
    (RND : rnd_state -> locs -> rnd_state) (s : rnd_state) (i j : nat) :
  round_macro RND -> 0 <= rc2 s < 2 ^ 32 ->
  (i < j)%nat -> Z.of_nat j - Z.of_nat i < 2 ^ 32 ->
  rc1 (after_rounds RND i s) = rc1 s /\
  rc1 (after_rounds RND j s) = rc1 s /\
  rc2 (after_rounds RND i s) = wrap32 (rc2 s + Z.of_nat i) /\
  rc2 (after_rounds RND j s) = wrap32 (rc2 s + Z.of_nat j) /\
  rc2 (after_rounds RND i s) <> rc2 (after_rounds RND j s).
Proof.
  intros HR Hs Hij Hd.
  assert (forall n, rc1 (after_rounds RND n s) = rc1 s) as Hc1.
  { intros n. unfold after_rounds.
    rewrite rounds_rc1, sweeps_rc1 by exact HR. reflexivity. }
  rewrite !Hc1, !after_rounds_rc2 by assumption.
  do 4 (split; [reflexivity|]).
  apply wrap32_apart; lia.
Qed.

Lemma xor_stream_app input ks1 ks2 :
  xor_stream input (ks1 ++ ks2) =
  xor_stream input ks1 ++ xor_stream (skipn (length ks1) input) ks2.
Proof.
  unfold xor_stream. rewrite imap_app. f_equal.
  apply imap_ext. intros i k _. cbn. rewrite nth_skipn_add. reflexivity.
Qed.

(** X10: a processing request may be made in two calls: under the
    conditions of the keystream case, processing the first [a] blocks and
    then the next [b] blocks, the second call reading the input from word
    [2 * a] on, stores what the single call for [a + b] stores and leaves
    the same context. *)
Theorem process_blocks_in_two_calls
    (fuel : nat) (action : Z) (ctx : ECRYPT_ctx) (input : list Z) (a b : Z) :
  0 <= a -> 0 <= b -> a mod 16 = 0 -> b mod 16 = 0 -> a + b < 2 ^ 32 ->
  0 <= state_counter1 ctx -> state_counter1 ctx + a < 2 ^ 32 ->
  (Z.to_nat ((a + b) / 16) <= fuel)%nat ->
  exists c1 out1 c2 out2,
    ECRYPT_process_blocks fuel action (Some ctx) (Some input) Buf a =
      Ret (c1, out1) /\
    ECRYPT_process_blocks fuel action (Some c1)
      (Some (skipn (Z.to_nat (2 * a)) input)) Buf b = Ret (c2, out2) /\
    ECRYPT_process_blocks fuel action (Some ctx) (Some input) Buf (a + b) =
      Ret (c2, out1 ++ out2).
Proof.
  intros Ha Hb Hma Hmb Hab Hlo Hhi Hf.
  destruct (two_counts a b Ha Hb Hma Hmb) as (ka & kb & Ea & Eb & Eab & Ek).
  pose proof (keystream_blocks_split fuel ctx ka kb
                ltac:(lia) Hlo ltac:(lia) ltac:(lia)) as Hsplit.
  rewrite <- Ea, <- Eb, <- Eab in Hsplit. clear ka kb Ea Eb Eab Ek.
  destruct Hsplit as (c1 & ks1 & c2 & ks2 & Hk1 & Hk2 & Hk).
  assert (Z.to_nat (a / 16) <= fuel /\ Z.to_nat (b / 16) <= fuel)%nat as [Hfa Hfb].
  { assert (a / 16 <= (a + b) / 16) by (apply Z.div_le_mono; lia).
    assert (b / 16 <= (a + b) / 16) by (apply Z.div_le_mono; lia).
    lia. }
  assert ((a + b) mod 16 = 0) as Hmab.
  { rewrite Z.add_mod, Hma, Hmb by lia. reflexivity. }
  destruct (process_blocks_is_xor fuel action ctx input a ltac:(lia) Hma Hfa)
    as (d1 & l1 & Hl1 & Hp1 & Hlen1).
  rewrite Hk1 in Hl1. apply Ret_inj in Hl1. injection Hl1 as <- <-.
  destruct (process_blocks_is_xor fuel action c1 (skipn (Z.to_nat (2 * a)) input) b
              ltac:(lia) Hmb Hfb) as (d2 & l2 & Hl2 & Hp2 & _).
  rewrite Hk2 in Hl2. apply Ret_inj in Hl2. injection Hl2 as <- <-.
  destruct (process_blocks_is_xor fuel action ctx input (a + b)
              ltac:(lia) Hmab Hf) as (d & l & Hl & Hp & _).
  rewrite Hk in Hl. apply Ret_inj in Hl. injection Hl as <- <-.
  exists c1, (xor_stream input ks1), c2,
         (xor_stream (skipn (Z.to_nat (2 * a)) input) ks2).
  split; [exact Hp1|]. split; [exact Hp2|].
  rewrite Hp, xor_stream_app, Hlen1. reflexivity.
Qed.

(** ** What the mixing of an IV setup starts from *)

Lemma iv_merge_depends c c' iv :
  nlfsr_word c = nlfsr_word c' -> key_size c = key_size c' ->
  nlfsr_word (iv_merge c iv) = nlfsr_word (iv_merge c' iv).
Proof.
  intros Hw Hk. unfold iv_merge. rewrite Hk, Hw.
  destruct (key_size c' =? 128); unfold set_nlfsr_word; cbn [nlfsr_word];
    reflexivity.
Qed.

Lemma first_merge_layout ctx0 key keysize ivsize iv :
  length (nlfsr_word ctx0) = 32%nat ->
  nlfsr_word (iv_merge (keysetup_body ctx0 key keysize ivsize) iv) =
  if keysize =? 128 then layout128 key iv else layout256 key iv.
Proof.
  intros Hw. destruct ctx0 as [w c0 c1 ini ks off buf bi fr].
  cbn [nlfsr_word] in Hw. explode32 w Hw.
  unfold iv_merge, keysetup_body.
  destruct (keysize =? 128) eqn:E; ctx_fields; rewrite E;
    unfold set_nlfsr_word; cbn [nlfsr_word];
    cbn [fold_left seq key128_k key128_kswap key256_k iv128_iv iv128_ivswap
         iv256_iv xor_at insert list_insert nth Nat.add Nat.mul
         layout128 layout256 words_of map zip_with app];
    rewrite ?Z.lxor_assoc; reflexivity.
Qed.

Lemma session_restores_snapshot (fuel : nat) ctx0 key keysize ivsize iv1 calls
    ctxk s1 s2 :
  length (nlfsr_word ctx0) = 32%nat -> length (init_state ctx0) = 32%nat ->
  ECRYPT_keysetup (Some ctx0) (Some key) keysize ivsize = Ret ctxk ->
  ECRYPT_ivsetup (Some ctxk) (Some iv1) = Ret s1 ->
  run_calls fuel s1 calls = Ret s2 ->
  nlfsr_word (iv_restore s2) = nlfsr_word ctxk /\ key_size s2 = key_size ctxk.
Proof.
  intros Hw Hs Hkey Hiv Hrun.
  apply keysetup_ret in Hkey. apply ivsetup_ret in Hiv.
  pose proof (keysetup_snapshot ctx0 key keysize ivsize Hw Hs) as Hsnap.
  destruct (keysetup_body_keyed ctx0 key keysize ivsize) as (Hkeyed & _ & Hfrk).
  rewrite <- Hkey in Hsnap, Hkeyed, Hfrk. rewrite Hw in Hkeyed.
  destruct (ivsetup_body_keyed _ _ _ _ iv1 Hkeyed) as (Hkeyed1 & Hfr1).
  rewrite <- Hiv in Hkeyed1, Hfr1.
  destruct (run_calls_keyed _ _ _ _ _ _ _ Hkeyed1 Hrun) as (Hkeyed2 & Hfr2).
  specialize (Hfr2 Hfr1).
  destruct Hkeyed2 as (HK2 & Hks2 & Hn2 & _). destruct Hkeyed as (_ & Hksk & Hnk & _).
  split; [|congruence].
  unfold iv_restore. rewrite Hfr2. cbn [Z.eqb]. unfold set_nlfsr_word.
  cbn [nlfsr_word]. rewrite copy_words_full; [congruence | | exact Hn2].
  rewrite HK2, Hsnap. exact Hnk.
Qed.

(** X11: the state the mixing of an IV setup starts from is the layout the
    code comments give, built from the key and the IV of that call only:
    for the first IV setup after key setup, and for any later IV setup of
    the session, whatever was generated or processed in between.  Key size
    128 selects [k | k'^iv' | iv | k^iv' | k' | k^iv | iv' | k'^iv], any
    other key size [k | k^iv | {k^iv} | iv]. *)
Theorem iv_merge_layout
    (fuel : nat) (ctx0 : ECRYPT_ctx) (key : list Z) (keysize ivsize : Z)
    (iv1 : list Z) (calls : list api_call) (ctxk s1 s2 : ECRYPT_ctx) :
  length (nlfsr_word ctx0) = 32%nat -> length (init_state ctx0) = 32%nat ->
  ECRYPT_keysetup (Some ctx0) (Some key) keysize ivsize = Ret ctxk ->
  ECRYPT_ivsetup (Some ctxk) (Some iv1) = Ret s1 ->
  run_calls fuel s1 calls = Ret s2 ->
  nlfsr_word (iv_merge (iv_restore ctxk) iv1) =
    (if keysize =? 128 then layout128 key iv1 else layout256 key iv1) /\
  forall iv,
    nlfsr_word (iv_merge (iv_restore s2) iv) =
    (if keysize =? 128 then layout128 key iv else layout256 key iv).
Proof.
  intros Hw Hs Hkey Hiv Hrun.
  destruct (session_restores_snapshot fuel ctx0 key keysize ivsize iv1 calls
              ctxk s1 s2 Hw Hs Hkey Hiv Hrun) as [Hres Hks].
  apply keysetup_ret in Hkey.
  destruct (keysetup_body_keyed ctx0 key keysize ivsize) as (_ & _ & Hfrk).
  rewrite <- Hkey in Hfrk.
  assert (forall iv, nlfsr_word (iv_merge ctxk iv) =
                     if keysize =? 128 then layout128 key iv else layout256 key iv)
    as Hfirst.
  { intros iv. rewrite Hkey. apply first_merge_layout, Hw. }
  split.
  - rewrite (iv_restore_fresh _ Hfrk). apply Hfirst.
  - intros iv. rewrite <- Hfirst. apply iv_merge_depends; [exact Hres|].
    destruct (iv_restore_frame s2) as [(_ & -> & _) _]. exact Hks.
Qed.

(** ** The bookkeeping fields over a session *)

Lemma run_calls_bookkeeping (fuel : nat) calls c c' :
  run_calls fuel c calls = Ret c' ->
  init_state c' = init_state c /\ key_size c' = key_size c /\
  wrap32 (nlfsr_offset c') =
    wrap32 (nlfsr_offset c + 448 * Z.of_nat (length (filter is_ivsetup calls))) /\
  full_rekeying c' = (if existsb is_ivsetup calls then 0 else full_rekeying c).
Proof.
  revert c. induction calls as [|call calls IH]; intros c; cbn [run_calls].
  - intros Hc. apply Ret_inj in Hc. subst c'.
    cbn [filter length existsb Z.of_nat]. rewrite Z.mul_0_r, Z.add_0_r. auto.
  - destruct (run_call fuel c call) as [c1| |] eqn:Hcall;
      cbn [mbind result_bind]; try discriminate.
    intros Hrest. destruct (IH c1 Hrest) as (Hi & Hk & Ho & Hfr).
    cbn [existsb].
    destruct (is_ivsetup call) eqn:Hiv.
    + rewrite filter_cons_True by (rewrite Hiv; exact I).
      destruct call; try discriminate Hiv. cbn [run_call] in Hcall.
      apply ivsetup_ret in Hcall. subst c1.
      destruct (ivsetup_body_frame c iv) as ((Hi1 & Hk1 & _) & Ho1 & Hfr1).
      cbn [orb length]. rewrite Hi, Hk, Ho, Ho1, wrap32_add_l, Hfr, Hfr1.
      rewrite Hi1, Hk1. repeat split; try reflexivity.
      * f_equal. lia.
      * destruct (existsb is_ivsetup calls); reflexivity.
    + rewrite filter_cons_False by (rewrite Hiv; exact id).
      destruct (run_call_rounds fuel c call c1 Hiv Hcall)
        as ((Hi1 & Hk1 & Ho1 & Hfr1 & _) & _).
      cbn [orb]. rewrite Hi, Hk, Ho, Hfr, Hi1, Hk1, Ho1, Hfr1. auto.
Qed.

(** X12: the bookkeeping of a session under one key: no call changes the
    snapshot of the post-keysetup state or the stored key size; the NLFSR
    offset is 448 times the number of IV setups made, modulo 2^32; the
    first-IV flag is 1 until the first IV setup and 0 from then on. *)
Theorem session_bookkeeping
    (fuel : nat) (ctx0 : ECRYPT_ctx) (key : list Z) (keysize ivsize : Z)
    (calls : list api_call) (ctxk ctx : ECRYPT_ctx) :
  ECRYPT_keysetup (Some ctx0) (Some key) keysize ivsize = Ret ctxk ->
  run_calls fuel ctxk calls = Ret ctx ->
  init_state ctx = init_state ctxk /\ key_size ctx = keysize /\
  nlfsr_offset ctx = wrap32 (448 * Z.of_nat (length (filter is_ivsetup calls))) /\
  full_rekeying ctx = (if existsb is_ivsetup calls then 0 else 1).
Proof.
  intros Hkey Hrun.
  destruct (run_calls_bookkeeping fuel calls ctxk ctx Hrun) as (Hi & Hk & Ho & Hfr).
  apply keysetup_ret in Hkey.
  destruct (keysetup_body_keyed ctx0 key keysize ivsize)
    as ((_ & Hks & _) & Hok & Hfrk).
  rewrite <- Hkey in Hks, Hok, Hfrk.
  assert (0 <= nlfsr_offset ctx < 2 ^ 32) as Hrange.
  { apply (run_calls_offset_range fuel calls ctxk ctx); [|exact Hrun].
    rewrite Hok. lia. }
  rewrite Hok, Z.add_0_l in Ho. rewrite wrap32_small in Ho by exact Hrange.
  rewrite Hfrk in Hfr. rewrite Hk, Hks. auto.
Qed.

(** ** How much of the key and IV buffers is read *)

Lemma U8TO32_LITTLE_prefix (n : nat) p p' (off : nat) :
  firstn n p = firstn n p' -> (off + 3 < n)%nat ->
  U8TO32_LITTLE p off = U8TO32_LITTLE p' off.
Proof.
  intros Hp Ho.
  assert (forall i, (i < n)%nat -> nth i p 0 = nth i p' 0) as Hn.
  { intros i Hi. rewrite !nth_lookup.
    rewrite <- (lookup_take_lt p n i), <- (lookup_take_lt p' n i) by lia.
    rewrite Hp. reflexivity. }
  unfold U8TO32_LITTLE. rewrite !Hn by lia. reflexivity.
Qed.

Lemma keysetup_body_prefix ctx key key' keysize ivsize :
  firstn (bytes_read keysize) key = firstn (bytes_read keysize) key' ->
  keysetup_body ctx key keysize ivsize = keysetup_body ctx key' keysize ivsize.
Proof.
  intros Hp. unfold bytes_read in Hp. unfold keysetup_body.
  destruct (keysize =? 128);
    cbn [fold_left seq]; unfold key128_k, key128_kswap, key256_k;
    cbn [Nat.add Nat.mul];
    rewrite !(U8TO32_LITTLE_prefix _ key key' _ Hp) by lia; reflexivity.
Qed.

Lemma iv_merge_prefix c iv iv' :
  firstn (bytes_read (key_size c)) iv = firstn (bytes_read (key_size c)) iv' ->
  iv_merge c iv = iv_merge c iv'.
Proof.
  intros Hp. unfold bytes_read in Hp. unfold iv_merge.
  destruct (key_size c =? 128);
    cbn [fold_left seq]; unfold iv128_iv, iv128_ivswap, iv256_iv;
    cbn [Nat.add Nat.mul];
    rewrite !(U8TO32_LITTLE_prefix _ iv iv' _ Hp) by lia; reflexivity.
Qed.

(** X13: key setup reads the first 16 bytes of the key buffer when the key
    size is 128 and the first 32 bytes for every other key size; IV setup
    reads the first 16 or 32 bytes of the IV buffer by the stored key size
    (the IV size given to key setup plays no part).  Bytes beyond that
    never reach the context. *)
Theorem setup_reads_prefix_only
    (ctx : ECRYPT_ctx) (key key' iv iv' : list Z) (keysize ivsize ivsize' : Z) :
  firstn (bytes_read keysize) key = firstn (bytes_read keysize) key' ->
  firstn (bytes_read (key_size ctx)) iv = firstn (bytes_read (key_size ctx)) iv' ->
  ECRYPT_keysetup (Some ctx) (Some key) keysize ivsize =
    ECRYPT_keysetup (Some ctx) (Some key') keysize ivsize' /\
  ECRYPT_ivsetup (Some ctx) (Some iv) = ECRYPT_ivsetup (Some ctx) (Some iv').
Proof.
  intros Hk Hiv. split.
  - unfold ECRYPT_keysetup. f_equal.
    rewrite (keysetup_body_prefix ctx key key' keysize ivsize Hk).
    reflexivity.
  - unfold ECRYPT_ivsetup, ivsetup_body. f_equal.
    destruct (iv_restore_frame ctx) as [(_ & Hks & _) _].
    rewrite <- Hks in Hiv. rewrite (iv_merge_prefix _ iv iv' Hiv). reflexivity.
Qed.

(** ** A byte request made in two calls *)

Lemma served_add (n m : nat) c :
  served (n + m) c = served n c ++ served m (after_bytes n c).
Proof.
  revert c. induction n as [|n IH]; intros c; [reflexivity|].
  cbn [Nat.add served after_bytes app]. rewrite IH. reflexivity.
Qed.

Lemma after_bytes_add (n m : nat) c :
  after_bytes (n + m) c = after_bytes m (after_bytes n c).
Proof.
  revert c. induction n as [|n IH]; intros c; [reflexivity|].
  cbn [Nat.add after_bytes]. apply IH.
Qed.

Lemma xor_bytes_app input b1 b2 :
  xor_bytes input (b1 ++ b2) =
  xor_bytes input b1 ++ xor_bytes (skipn (length b1) input) b2.
Proof.
  unfold xor_bytes. rewrite imap_app. f_equal.
  apply imap_ext. intros i k _. cbn. rewrite nth_skipn_add. reflexivity.
Qed.

Lemma keystream_bytes_at_0 (fuel : nat) c len :
  buffer_index c = 0 -> (1 <= fuel)%nat ->
  ECRYPT_keystream_bytes fuel (Some c) Buf len =
    Ret (after_bytes (Z.to_nat len) c, served (Z.to_nat len) c).
Proof.
  intros Hb Hf. unfold ECRYPT_keystream_bytes.
  rewrite keystream_bytes_loop_total by assumption. reflexivity.
Qed.

Lemma process_bytes_at_0 (fuel : nat) action c input len :
  buffer_index c = 0 -> (1 <= fuel)%nat ->
  ECRYPT_process_bytes fuel action (Some c) (Some input) Buf len =
    Ret (after_bytes (Z.to_nat len) c, xor_bytes input (served (Z.to_nat len) c)).
Proof.
  intros Hb Hf. unfold ECRYPT_process_bytes.
  rewrite keystream_bytes_at_0 by assumption.
  cbn [mbind result_bind mret result_ret].
  rewrite xor_input_is_xor_bytes by apply served_length. reflexivity.
Qed.

(** X14: a byte request may be made in two calls: from a context whose
    cursor is 0 (every context of a session), [n] bytes and then [m] bytes
    are the [n + m] bytes of a single call, with the same context left
    behind; the same holds for byte processing, the second call reading the
    input from byte [n] on. *)
Theorem byte_requests_in_two_calls
    (fuel : nat) (action : Z) (ctx : ECRYPT_ctx) (input : list Z) (n m : Z) :
  buffer_index ctx = 0 -> (1 <= fuel)%nat -> 0 <= n -> 0 <= m ->
  (exists c1 b1 c2 b2,
      ECRYPT_keystream_bytes fuel (Some ctx) Buf n = Ret (c1, b1) /\
      ECRYPT_keystream_bytes fuel (Some c1) Buf m = Ret (c2, b2) /\
      ECRYPT_keystream_bytes fuel (Some ctx) Buf (n + m) = Ret (c2, b1 ++ b2)) /\
  (exists c1 o1 c2 o2,
      ECRYPT_process_bytes fuel action (Some ctx) (Some input) Buf n =
        Ret (c1, o1) /\
      ECRYPT_process_bytes fuel action (Some c1)
        (Some (skipn (Z.to_nat n) input)) Buf m = Ret (c2, o2) /\
      ECRYPT_process_bytes fuel action (Some ctx) (Some input) Buf (n + m) =
        Ret (c2, o1 ++ o2)).
Proof.
  intros Hb Hf Hn Hm.
  destruct (after_bytes_frame (Z.to_nat n) ctx Hb) as [_ Hb1].
  split.
  - exists (after_bytes (Z.to_nat n) ctx), (served (Z.to_nat n) ctx),
           (after_bytes (Z.to_nat m) (after_bytes (Z.to_nat n) ctx)),
           (served (Z.to_nat m) (after_bytes (Z.to_nat n) ctx)).
    rewrite !keystream_bytes_at_0 by assumption.
    rewrite Z2Nat.inj_add, served_add, after_bytes_add by assumption. auto.
  - exists (after_bytes (Z.to_nat n) ctx),
           (xor_bytes input (served (Z.to_nat n) ctx)),
           (after_bytes (Z.to_nat m) (after_bytes (Z.to_nat n) ctx)),
           (xor_bytes (skipn (Z.to_nat n) input)
              (served (Z.to_nat m) (after_bytes (Z.to_nat n) ctx))).
    rewrite !process_bytes_at_0 by assumption.
    rewrite Z2Nat.inj_add, served_add, after_bytes_add, xor_bytes_app,
      served_length by assumption.
    auto.
Qed.

End Properties.

(** ** The theorems at concrete inputs

    The substitution functions are [sample_sboxes]; the contexts, key and
    IV are the sample data above. *)

#[local] Existing Instance sample_sboxes.

Lemma counter_fold_back_once_per_call_witness :
  (0 < 32 < 2 ^ 32 /\ 32 mod 16 = 0 /\ (Z.to_nat (32 / 16) <= 2)%nat) /\
  counters_folded_back zero_ctx 32
    (ECRYPT_keystream_blocks 2 (Some zero_ctx) Buf 32).
Proof.
  split; [repeat split; try lia; reflexivity|].
  refine (proj1 (counter_fold_back_once_per_call 2 zero_ctx 0 [] 32 _ _ _));
    [lia | reflexivity | vm_compute; lia].
Defined.

(** C3, refuted as stated: a call for 5 blocks passes the assertions and
    never fails one; it runs the loop, whose first pass stores 32 keystream
    words and leaves a count of 2^32 - 11 to go. *)
Lemma keystream_blocks_5_is_not_stopped :
  5 mod 16 <> 0 /\
  (forall fuel,
      ECRYPT_keystream_blocks fuel (Some zero_ctx) Buf 5 <> AssertFail) /\
  (forall fuel,
      blocks_loop KEYSTREAM_RND (1 + fuel) 5 (rnd_start zero_ctx []) =
      blocks_loop KEYSTREAM_RND fuel (wrap32 (5 - 16 * Z.of_nat 1))
        (sweeps KEYSTREAM_RND 1 (rnd_start zero_ctx []))) /\
  wrap32 (5 - 16 * Z.of_nat 1) = 4294967285 /\
  length (rout (sweeps KEYSTREAM_RND 1 (rnd_start zero_ctx []))) = 32%nat.
Proof.
  split; [discriminate|]. split; [|split; [|split]].
  - intros fuel. unfold ECRYPT_keystream_blocks.
    rewrite blocks_loop_diverges by (try lia; discriminate). discriminate.
  - intros fuel. apply blocks_loop_passes; [lia | discriminate].
  - reflexivity.
  - vm_compute. reflexivity.
Qed.

Lemma block_count_is_not_checked_witness :
  (0 <= 5 < 2 ^ 32 /\ 5 mod 16 <> 0) /\
  ECRYPT_keystream_blocks 7 (Some zero_ctx) Buf 5 = OutOfFuel.
Proof.
  split; [split; [lia | discriminate]|].
  refine (proj1 (block_count_is_not_checked 7 zero_ctx 0 [] 5 _ _));
    [lia | discriminate].
Defined.

(** C2, refuted as stated: a 64-bit key size with a 96-bit IV size is not
    rejected; the context comes back initialised from the key. *)
Lemma keysetup_accepts_64_bit_key :
  exists ctx,
    ECRYPT_keysetup (Some zero_ctx) (Some sample_key) 64 96 = Ret ctx /\
    key_size ctx = 64 /\
    full_rekeying ctx = 1 /\
    firstn 4 (nlfsr_word ctx) = [67305985; 134678021; 202050057; 269422093].
Proof. eexists. split; [reflexivity|]. repeat split; vm_compute; reflexivity. Qed.

Lemma keysetup_checks_no_size_witness :
  64 <> 128 /\
  ECRYPT_keysetup (Some zero_ctx) (Some sample_key) 64 96 =
    Ret (set_key_size (keysetup_body zero_ctx sample_key 256 256) 64).
Proof.
  split; [discriminate|].
  refine (proj1 (keysetup_checks_no_size zero_ctx sample_key 64 96 256 _)).
  discriminate.
Defined.

(** C8, refuted as stated: on a context that was not cleared, slot 8 of the
    NLFSR and of the snapshot holds the stale word after a 128-bit key
    setup, not zero. *)
Lemma keysetup128_slot8_not_zero :
  exists ctx,
    ECRYPT_keysetup (Some stale_ctx) (Some sample_key) 128 128 = Ret ctx /\
    nth 8 (nlfsr_word ctx) 0 = 3735928559 /\
    nth 8 (init_state ctx) 0 = 3735928559 /\
    nth 8 (nlfsr_word ctx) 0 <> 0.
Proof.
  eexists. split; [reflexivity|].
  repeat split; vm_compute; try reflexivity; discriminate.
Qed.

Lemma keysetup128_leaves_iv_slots_witness :
  ((8 <= 8 < 12 \/ 24 <= 8 < 28)%nat /\
   length (nlfsr_word stale_ctx) = 32%nat /\
   length (init_state stale_ctx) = 32%nat) /\
  exists ctx',
    ECRYPT_keysetup (Some stale_ctx) (Some sample_key) 128 128 = Ret ctx' /\
    nth 8 (nlfsr_word ctx') 0 = nth 8 (nlfsr_word stale_ctx) 0 /\
    init_state ctx' = nlfsr_word ctx'.
Proof.
  split; [split; [lia | split; reflexivity]|].
  refine (keysetup128_leaves_iv_slots stale_ctx sample_key 128 8 _ _ _);
    [lia | reflexivity | reflexivity].
Defined.

Lemma sample_started_runs :
  ECRYPT_ivsetup (Some sample_keyed) (Some sample_iv) = Ret sample_started.
Proof. vm_compute. reflexivity. Qed.

Lemma sample_session_runs :
  run_calls 4 sample_keyed sample_calls = Ret sample_session_end.
Proof. vm_compute. reflexivity. Qed.

Lemma sample_later_runs :
  run_calls 4 sample_started sample_later_calls = Ret sample_later.
Proof. vm_compute. reflexivity. Qed.

Lemma cursor_never_advances_witness :
  (ECRYPT_keysetup (Some stale_ctx) (Some sample_key) 128 128 = Ret sample_keyed /\
   run_calls 4 sample_keyed sample_calls = Ret sample_session_end /\
   (1 <= 4)%nat) /\
  buffer_index sample_session_end = 0 /\
  state_counter1 (serve_byte sample_session_end) =
    wrap32 (state_counter1 sample_session_end + 16).
Proof.
  split; [split; [reflexivity | split; [exact sample_session_runs | lia]]|].
  pose proof (cursor_never_advances 4 stale_ctx sample_key 128 128
                sample_calls sample_keyed sample_session_end
                eq_refl sample_session_runs ltac:(lia)) as Hthm.
  split; [exact (proj1 (proj2 Hthm))|].
  exact (proj1 (proj2 (proj2 (proj2 (proj2 (proj2 Hthm)))))).
Defined.

Lemma nlfsr_offset_multiple_of_32_witness :
  (ECRYPT_keysetup (Some stale_ctx) (Some sample_key) 128 128 = Ret sample_keyed /\
   run_calls 4 sample_keyed sample_calls = Ret sample_session_end) /\
  nlfsr_offset sample_keyed = 0 /\
  nlfsr_offset sample_session_end mod 32 = 0.
Proof.
  split; [split; [reflexivity | exact sample_session_runs]|].
  pose proof (nlfsr_offset_multiple_of_32 4 stale_ctx sample_key 128 128
                sample_calls sample_keyed sample_session_end
                eq_refl sample_session_runs) as Hthm.
  split; [exact (proj1 Hthm) | exact (proj1 (proj2 Hthm))].
Defined.

Lemma keystream_is_deterministic_witness :
  (length (nlfsr_word stale_ctx) = 32%nat /\ length (nlfsr_word zero_ctx) = 32%nat /\
   0 <= 32 < 2 ^ 32 /\ 32 mod 16 = 0 /\
   (Z.to_nat (32 / 16) <= 2)%nat /\ (1 <= 2)%nat) /\
  exists ck s ck' s',
    ECRYPT_keysetup (Some stale_ctx) (Some sample_key) 128 128 = Ret ck /\
    ECRYPT_ivsetup (Some ck) (Some sample_iv) = Ret s /\
    ECRYPT_keysetup (Some zero_ctx) (Some sample_key) 128 128 = Ret ck' /\
    ECRYPT_ivsetup (Some ck') (Some sample_iv) = Ret s' /\
    nlfsr_word (iv_merge ck sample_iv) = nlfsr_word (iv_merge ck' sample_iv) /\
    same_core s s' /\
    same_keystream 2 s s' 32 200.
Proof.
  split; [repeat split; try reflexivity; try lia; vm_compute; lia|].
  refine (keystream_is_deterministic 2 stale_ctx zero_ctx sample_key 128 128
            sample_iv 32 200 _ _ _ _ _ _);
    [reflexivity | reflexivity | lia | reflexivity | vm_compute; lia | lia].
Defined.

Lemma ivsetup_rerun_reproduces_witness :
  (length (nlfsr_word stale_ctx) = 32%nat /\ length (init_state stale_ctx) = 32%nat /\
   ECRYPT_keysetup (Some stale_ctx) (Some sample_key) 128 128 = Ret sample_keyed /\
   ECRYPT_ivsetup (Some sample_keyed) (Some sample_iv) = Ret sample_started /\
   run_calls 4 sample_started sample_later_calls = Ret sample_later /\
   0 <= 16 < 2 ^ 32 /\ 16 mod 16 = 0 /\
   (Z.to_nat (16 / 16) <= 4)%nat /\ (1 <= 4)%nat) /\
  full_rekeying sample_later = 0 /\
  nlfsr_word (iv_restore sample_later) = nlfsr_word sample_keyed /\
  exists s3,
    ECRYPT_ivsetup (Some sample_later) (Some sample_iv) = Ret s3 /\
    same_core s3 sample_started /\
    same_keystream 4 s3 sample_started 16 7.
Proof.
  split.
  { split; [reflexivity|]. split; [reflexivity|]. split; [reflexivity|].
    split; [exact sample_started_runs|]. split; [exact sample_later_runs|].
    split; [lia|]. split; [reflexivity|]. split; [vm_compute; lia | lia]. }
  refine (ivsetup_rerun_reproduces 4 stale_ctx sample_key 128 128 sample_iv
            sample_later_calls sample_keyed sample_started sample_later 16 7
            _ _ _ _ _ _ _ _ _);
    [reflexivity | reflexivity | reflexivity | exact sample_started_runs
     | exact sample_later_runs | lia | reflexivity | vm_compute; lia | lia].
Defined.

Lemma process_blocks_self_inverse_witness :
  (length (nlfsr_word stale_ctx) = 32%nat /\ length (nlfsr_word zero_ctx) = 32%nat /\
   0 <= 16 < 2 ^ 32 /\ 16 mod 16 = 0 /\ (Z.to_nat (16 / 16) <= 1)%nat /\
   length sample_msg = Z.to_nat (2 * 16)) /\
  exists ck s ck' s' c ct c',
    ECRYPT_keysetup (Some stale_ctx) (Some sample_key) 256 256 = Ret ck /\
    ECRYPT_ivsetup (Some ck) (Some sample_iv) = Ret s /\
    ECRYPT_keysetup (Some zero_ctx) (Some sample_key) 256 256 = Ret ck' /\
    ECRYPT_ivsetup (Some ck') (Some sample_iv) = Ret s' /\
    ECRYPT_process_blocks 1 0 (Some s) (Some sample_msg) Buf 16 = Ret (c, ct) /\
    ECRYPT_process_blocks 1 1 (Some s') (Some ct) Buf 16 = Ret (c', sample_msg) /\
    length ct = length sample_msg.
Proof.
  split; [repeat split; try reflexivity; try lia; vm_compute; lia|].
  refine (proj1 (process_blocks_self_inverse 1 stale_ctx zero_ctx sample_key
                   256 256 sample_iv sample_msg 16 0 1 _ _ _ _ _ _));
    [reflexivity | reflexivity | lia | reflexivity | vm_compute; lia | reflexivity].
Defined.

Lemma sample_started_cursor : buffer_index sample_started = 0.
Proof. vm_compute. reflexivity. Qed.

Lemma keystream_bytes_leaves_block_trajectory_witness :
  (buffer_index sample_started = 0 /\ 0 < 128 < 2 ^ 32 /\ 128 mod 128 = 0 /\
   (Z.to_nat (128 / 8 / 16) <= 1)%nat /\ (1 <= 1)%nat) /\
  exists cb bytes ck ws,
    ECRYPT_keystream_bytes 1 (Some sample_started) Buf 128 = Ret (cb, bytes) /\
    ECRYPT_keystream_blocks 1 (Some sample_started) Buf (128 / 8) = Ret (ck, ws) /\
    length bytes = Z.to_nat 128 /\
    length (words_to_bytes ws) = Z.to_nat 128 /\
    bytes = served (Z.to_nat 128) sample_started /\
    state_counter1 cb = wrap32 (state_counter1 sample_started + 16 * 128) /\
    state_counter1 ck = wrap32 (state_counter1 sample_started + 128 / 8) /\
    state_counter1 cb <> state_counter1 ck.
Proof.
  split.
  { split; [exact sample_started_cursor|]. split; [lia|]. split; [reflexivity|].
    split; [vm_compute; lia | lia]. }
  refine (keystream_bytes_leaves_block_trajectory 1 sample_started 128
            _ _ _ _ _);
    [exact sample_started_cursor | lia | reflexivity | vm_compute; lia | lia].
Defined.

(** C1 on the sample data: the 128 bytes the adapter returns are not the
    128 bytes of the 16 blocks; they already differ in the second byte. *)
Lemma keystream_bytes_128_sample :
  match ECRYPT_keystream_bytes 1 (Some sample_started) Buf 128,
        ECRYPT_keystream_blocks 1 (Some sample_started) Buf 16 with
  | Ret (_, bytes), Ret (_, ws) =>
      length bytes = 128%nat /\ length (words_to_bytes ws) = 128%nat /\
      nth 0 bytes 0 = nth 0 (words_to_bytes ws) 0 /\
      nth 1 bytes 0 <> nth 1 (words_to_bytes ws) 0
  | _, _ => False
  end.
Proof. vm_compute. repeat split. discriminate. Qed.

Lemma keystream_blocks_output_witness :
  (0 <= 32 < 2 ^ 32 /\ 32 mod 16 = 0 /\ (Z.to_nat (32 / 16) <= 2)%nat) /\
  exists ctx' ks,
    ECRYPT_keystream_blocks 2 (Some sample_started) Buf 32 = Ret (ctx', ks) /\
    length ks = Z.to_nat (2 * 32) /\
    length (words_to_bytes ks) = Z.to_nat (8 * 32) /\
    Forall is_u32 ks /\
    Forall is_u8 (words_to_bytes ks).
Proof.
  split; [repeat split; try lia; reflexivity|].
  refine (keystream_blocks_output 2 sample_started 32 _ _ _);
    [lia | reflexivity | vm_compute; lia].
Defined.




Lemma process_blocks_is_keystream_xor_witness :
  (0 <= 16 < 2 ^ 32 /\ 16 mod 16 = 0 /\ (Z.to_nat (16 / 16) <= 1)%nat) /\
  exists c' ks,
    ECRYPT_keystream_blocks 1 (Some sample_started) Buf 16 = Ret (c', ks) /\
    (forall input,
        ECRYPT_process_blocks 1 0 (Some sample_started) (Some input) Buf 16 =
        Ret (c', xor_stream input ks)) /\
    (forall input (i : nat), (i < length ks)%nat ->
        nth i (xor_stream input ks) 0 = Z.lxor (nth i input 0) (nth i ks 0)) /\
    ECRYPT_process_blocks 1 0 (Some sample_started)
      (Some (repeat 0 (length ks))) Buf 16 = Ret (c', ks).
Proof.
  split; [repeat split; try lia; reflexivity|].
  refine (process_blocks_is_keystream_xor 1 0 sample_started 16 _ _ _);
    [lia | reflexivity | vm_compute; lia].
Defined.

Lemma keystream_blocks_in_two_calls_witness :
  (0 <= 16 /\ 0 <= 32 /\ 16 mod 16 = 0 /\ 32 mod 16 = 0 /\ 16 + 32 < 2 ^ 32 /\
   0 <= state_counter1 zero_ctx /\ state_counter1 zero_ctx + 16 < 2 ^ 32 /\
   (Z.to_nat ((16 + 32) / 16) <= 3)%nat) /\
  exists c1 ks1 c2 ks2,
    ECRYPT_keystream_blocks 3 (Some zero_ctx) Buf 16 = Ret (c1, ks1) /\
    ECRYPT_keystream_blocks 3 (Some c1) Buf 32 = Ret (c2, ks2) /\
    ECRYPT_keystream_blocks 3 (Some zero_ctx) Buf (16 + 32) = Ret (c2, ks1 ++ ks2).
Proof.
  split.
  { split; [lia|]. split; [lia|]. split; [reflexivity|]. split; [reflexivity|].
    split; [lia|]. split; [vm_compute; discriminate|].
    split; [vm_compute; reflexivity | vm_compute; lia]. }
  refine (keystream_blocks_in_two_calls 3 zero_ctx 16 32 _ _ _ _ _ _ _ _);
    [lia | lia | reflexivity | reflexivity | lia | vm_compute; discriminate
     | vm_compute; reflexivity | vm_compute; lia].
Defined.

Lemma round_counters_never_repeat_witness :
  (round_macro KEYSTREAM_RND /\ 0 <= rc2 (rnd_start zero_ctx []) < 2 ^ 32 /\
   (3 < 20)%nat /\ Z.of_nat 20 - Z.of_nat 3 < 2 ^ 32) /\
  rc1 (after_rounds KEYSTREAM_RND 3 (rnd_start zero_ctx [])) =
    rc1 (rnd_start zero_ctx []) /\
  rc1 (after_rounds KEYSTREAM_RND 20 (rnd_start zero_ctx [])) =
    rc1 (rnd_start zero_ctx []) /\
  rc2 (after_rounds KEYSTREAM_RND 3 (rnd_start zero_ctx [])) =
    wrap32 (rc2 (rnd_start zero_ctx []) + Z.of_nat 3) /\
  rc2 (after_rounds KEYSTREAM_RND 20 (rnd_start zero_ctx [])) =
    wrap32 (rc2 (rnd_start zero_ctx []) + Z.of_nat 20) /\
  rc2 (after_rounds KEYSTREAM_RND 3 (rnd_start zero_ctx [])) <>
    rc2 (after_rounds KEYSTREAM_RND 20 (rnd_start zero_ctx [])).
Proof.
  split.
  { split; [exact macro_keystream|]. split; [vm_compute; split; [discriminate | reflexivity]|].
    split; [lia | vm_compute; reflexivity]. }
  refine (round_counters_never_repeat KEYSTREAM_RND (rnd_start zero_ctx []) 3 20
            _ _ _ _);
    [exact macro_keystream | vm_compute; split; [discriminate | reflexivity]
     | lia | vm_compute; reflexivity].
Defined.

Lemma process_blocks_in_two_calls_witness :
  (0 <= 16 /\ 0 <= 16 /\ 16 mod 16 = 0 /\ 16 mod 16 = 0 /\ 16 + 16 < 2 ^ 32 /\
   0 <= state_counter1 zero_ctx /\ state_counter1 zero_ctx + 16 < 2 ^ 32 /\
   (Z.to_nat ((16 + 16) / 16) <= 2)%nat) /\
  exists c1 out1 c2 out2,
    ECRYPT_process_blocks 2 0 (Some zero_ctx) (Some (sample_msg ++ sample_msg)) Buf 16 =
      Ret (c1, out1) /\
    ECRYPT_process_blocks 2 0 (Some c1)
      (Some (skipn (Z.to_nat (2 * 16)) (sample_msg ++ sample_msg))) Buf 16 =
      Ret (c2, out2) /\
    ECRYPT_process_blocks 2 0 (Some zero_ctx) (Some (sample_msg ++ sample_msg)) Buf
      (16 + 16) = Ret (c2, out1 ++ out2).
Proof.
  split.
  { split; [lia|]. split; [lia|]. split; [reflexivity|]. split; [reflexivity|].
    split; [lia|]. split; [vm_compute; discriminate|].
    split; [vm_compute; reflexivity | vm_compute; lia]. }
  refine (process_blocks_in_two_calls 2 0 zero_ctx (sample_msg ++ sample_msg) 16 16
            _ _ _ _ _ _ _ _);
    [lia | lia | reflexivity | reflexivity | lia | vm_compute; discriminate
     | vm_compute; reflexivity | vm_compute; lia].
Defined.

Lemma iv_merge_layout_witness :
  (length (nlfsr_word stale_ctx) = 32%nat /\ length (init_state stale_ctx) = 32%nat /\
   ECRYPT_keysetup (Some stale_ctx) (Some sample_key) 128 128 = Ret sample_keyed /\
   ECRYPT_ivsetup (Some sample_keyed) (Some sample_iv) = Ret sample_started /\
   run_calls 4 sample_started sample_later_calls = Ret sample_later) /\
  nlfsr_word (iv_merge (iv_restore sample_keyed) sample_iv) =
    (if 128 =? 128 then layout128 sample_key sample_iv
     else layout256 sample_key sample_iv) /\
  forall iv,
    nlfsr_word (iv_merge (iv_restore sample_later) iv) =
    (if 128 =? 128 then layout128 sample_key iv else layout256 sample_key iv).
Proof.
  split.
  { split; [reflexivity|]. split; [reflexivity|]. split; [reflexivity|].
    split; [exact sample_started_runs | exact sample_later_runs]. }
  refine (iv_merge_layout 4 stale_ctx sample_key 128 128 sample_iv
            sample_later_calls sample_keyed sample_started sample_later
            _ _ _ _ _);
    [reflexivity | reflexivity | reflexivity | exact sample_started_runs
     | exact sample_later_runs].
Defined.

Lemma session_bookkeeping_witness :
  (ECRYPT_keysetup (Some stale_ctx) (Some sample_key) 128 128 = Ret sample_keyed /\
   run_calls 4 sample_keyed sample_calls = Ret sample_session_end) /\
  init_state sample_session_end = init_state sample_keyed /\
  key_size sample_session_end = 128 /\
  nlfsr_offset sample_session_end =
    wrap32 (448 * Z.of_nat (length (filter is_ivsetup sample_calls))) /\
  full_rekeying sample_session_end =
    (if existsb is_ivsetup sample_calls then 0 else 1).
Proof.
  split; [split; [reflexivity | exact sample_session_runs]|].
  refine (session_bookkeeping 4 stale_ctx sample_key 128 128 sample_calls
            sample_keyed sample_session_end _ _);
    [reflexivity | exact sample_session_runs].
Defined.

Lemma setup_reads_prefix_only_witness :
  (firstn (bytes_read 128) sample_key = firstn (bytes_read 128) (firstn 16 sample_key) /\
   firstn (bytes_read (key_size sample_keyed)) sample_iv =
     firstn (bytes_read (key_size sample_keyed)) (firstn 16 sample_iv ++ [7; 7])) /\
  ECRYPT_keysetup (Some sample_keyed) (Some sample_key) 128 128 =
    ECRYPT_keysetup (Some sample_keyed) (Some (firstn 16 sample_key)) 128 256 /\
  ECRYPT_ivsetup (Some sample_keyed) (Some sample_iv) =
    ECRYPT_ivsetup (Some sample_keyed) (Some (firstn 16 sample_iv ++ [7; 7])).
Proof.
  split; [split; vm_compute; reflexivity|].
  refine (setup_reads_prefix_only sample_keyed sample_key (firstn 16 sample_key)
            sample_iv (firstn 16 sample_iv ++ [7; 7]) 128 128 256 _ _);
    vm_compute; reflexivity.
Defined.

Lemma byte_requests_in_two_calls_witness :
  (buffer_index sample_started = 0 /\ (1 <= 1)%nat /\ 0 <= 3 /\ 0 <= 5) /\
  exists c1 b1 c2 b2,
    ECRYPT_keystream_bytes 1 (Some sample_started) Buf 3 = Ret (c1, b1) /\
    ECRYPT_keystream_bytes 1 (Some c1) Buf 5 = Ret (c2, b2) /\
    ECRYPT_keystream_bytes 1 (Some sample_started) Buf (3 + 5) = Ret (c2, b1 ++ b2).
Proof.
  split; [split; [exact sample_started_cursor | lia]|].
  refine (proj1 (byte_requests_in_two_calls 1 0 sample_started [] 3 5 _ _ _ _));
    [exact sample_started_cursor | lia | lia | lia].
Defined.
